(** * Miehab voice assistant (app.py): turn loop, capture, respond, lookups

    A shallow embedding of [app.py] and the properties of its dialogue turn
    loop.

    Python text is modelled by [string], the bytes of its UTF-8 encoding.
    [lower] and the whitespace class below are Python's on the ASCII range
    and leave the bytes above 127 alone: the trigger words of the program
    are ASCII, and the only characters beyond ASCII whose lower case has an
    ASCII letter in it (U+0130 and the Kelvin sign U+212A, giving i and k)
    bring no letter of a trigger that is tested.  [capitalize], which renders
    the names of cities, maps every character, by the tables of Unicode 14.0.

    The program runs in one thread.  Its effects are kept in a trace of
    events; the speech engine, the microphone, the recognizer and the lookup
    providers are functions of the history that say, call by call, whether
    the call returns or which exception it raises.  The exceptions are those
    deriving from [Exception], the ones an [except Exception] clause
    catches. *)

From Stdlib Require Import Bool Arith ZArith NArith List String Ascii Lia.
From Stdlib Require Import DecimalString.
Import ListNotations.
Local Open Scope string_scope.
Set Warnings "-register-all".

(** ** Python's [str] operations used by the program *)

Module PyStr.

Definition is_upper (c : ascii) : bool :=
  let n := nat_of_ascii c in (65 <=? n)%nat && (n <=? 90)%nat.

Definition is_lower (c : ascii) : bool :=
  let n := nat_of_ascii c in (97 <=? n)%nat && (n <=? 122)%nat.

Definition lower_char (c : ascii) : ascii :=
  if is_upper c then ascii_of_nat (nat_of_ascii c + 32) else c.

Definition upper_char (c : ascii) : ascii :=
  if is_lower c then ascii_of_nat (nat_of_ascii c - 32) else c.

(** [s.lower()] *)
Fixpoint lower (s : string) : string :=
  match s with
  | EmptyString => EmptyString
  | String c s' => String (lower_char c) (lower s')
  end.

(** ** Characters beyond ASCII

    [capitalize] maps every character of the text, so the text is read as
    code points.  The tables are those of Unicode 14.0: a row
    [(first, last, step, image)] sends the code points [first], [first + step],
    ... up to [last] to [image], [image + step], ...; a code point in no row
    is its own image. *)

Definition lower_table : list (N * N * N * N) :=
  [(0xc0, 0xd6, 1, 0xe0); (0xd8, 0xde, 1, 0xf8); (0x100, 0x12e, 2, 0x101);
   (0x132, 0x136, 2, 0x133); (0x139, 0x147, 2, 0x13a); (0x14a, 0x176, 2, 0x14b);
   (0x178, 0x178, 1, 0xff); (0x179, 0x17d, 2, 0x17a); (0x181, 0x181, 1, 0x253);
   (0x182, 0x184, 2, 0x183); (0x186, 0x186, 1, 0x254); (0x187, 0x187, 1, 0x188);
   (0x189, 0x18a, 1, 0x256); (0x18b, 0x18b, 1, 0x18c); (0x18e, 0x18e, 1, 0x1dd);
   (0x18f, 0x18f, 1, 0x259); (0x190, 0x190, 1, 0x25b); (0x191, 0x191, 1, 0x192);
   (0x193, 0x193, 1, 0x260); (0x194, 0x194, 1, 0x263); (0x196, 0x196, 1, 0x269);
   (0x197, 0x197, 1, 0x268); (0x198, 0x198, 1, 0x199); (0x19c, 0x19c, 1, 0x26f);
   (0x19d, 0x19d, 1, 0x272); (0x19f, 0x19f, 1, 0x275); (0x1a0, 0x1a4, 2, 0x1a1);
   (0x1a6, 0x1a6, 1, 0x280); (0x1a7, 0x1a7, 1, 0x1a8); (0x1a9, 0x1a9, 1, 0x283);
   (0x1ac, 0x1ac, 1, 0x1ad); (0x1ae, 0x1ae, 1, 0x288); (0x1af, 0x1af, 1, 0x1b0);
   (0x1b1, 0x1b2, 1, 0x28a); (0x1b3, 0x1b5, 2, 0x1b4); (0x1b7, 0x1b7, 1, 0x292);
   (0x1b8, 0x1b8, 1, 0x1b9); (0x1bc, 0x1bc, 1, 0x1bd); (0x1c4, 0x1c4, 1, 0x1c6);
   (0x1c5, 0x1c5, 1, 0x1c6); (0x1c7, 0x1c7, 1, 0x1c9); (0x1c8, 0x1c8, 1, 0x1c9);
   (0x1ca, 0x1ca, 1, 0x1cc); (0x1cb, 0x1db, 2, 0x1cc); (0x1de, 0x1ee, 2, 0x1df);
   (0x1f1, 0x1f1, 1, 0x1f3); (0x1f2, 0x1f4, 2, 0x1f3); (0x1f6, 0x1f6, 1, 0x195);
   (0x1f7, 0x1f7, 1, 0x1bf); (0x1f8, 0x21e, 2, 0x1f9); (0x220, 0x220, 1, 0x19e);
   (0x222, 0x232, 2, 0x223); (0x23a, 0x23a, 1, 0x2c65); (0x23b, 0x23b, 1, 0x23c);
   (0x23d, 0x23d, 1, 0x19a); (0x23e, 0x23e, 1, 0x2c66); (0x241, 0x241, 1, 0x242);
   (0x243, 0x243, 1, 0x180); (0x244, 0x244, 1, 0x289); (0x245, 0x245, 1, 0x28c);
   (0x246, 0x24e, 2, 0x247); (0x370, 0x372, 2, 0x371); (0x376, 0x376, 1, 0x377);
   (0x37f, 0x37f, 1, 0x3f3); (0x386, 0x386, 1, 0x3ac); (0x388, 0x38a, 1, 0x3ad);
   (0x38c, 0x38c, 1, 0x3cc); (0x38e, 0x38f, 1, 0x3cd); (0x391, 0x3a1, 1, 0x3b1);
   (0x3a4, 0x3ab, 1, 0x3c4); (0x3cf, 0x3cf, 1, 0x3d7); (0x3d8, 0x3ee, 2, 0x3d9);
   (0x3f4, 0x3f4, 1, 0x3b8); (0x3f7, 0x3f7, 1, 0x3f8); (0x3f9, 0x3f9, 1, 0x3f2);
   (0x3fa, 0x3fa, 1, 0x3fb); (0x3fd, 0x3ff, 1, 0x37b); (0x400, 0x40f, 1, 0x450);
   (0x410, 0x42f, 1, 0x430); (0x460, 0x480, 2, 0x461); (0x48a, 0x4be, 2, 0x48b);
   (0x4c0, 0x4c0, 1, 0x4cf); (0x4c1, 0x4cd, 2, 0x4c2); (0x4d0, 0x52e, 2, 0x4d1);
   (0x531, 0x556, 1, 0x561); (0x10a0, 0x10c5, 1, 0x2d00); (0x10c7, 0x10c7, 1, 0x2d27);
   (0x10cd, 0x10cd, 1, 0x2d2d); (0x13a0, 0x13ef, 1, 0xab70); (0x13f0, 0x13f5, 1, 0x13f8);
   (0x1c90, 0x1cba, 1, 0x10d0); (0x1cbd, 0x1cbf, 1, 0x10fd); (0x1e00, 0x1e94, 2, 0x1e01);
   (0x1e9e, 0x1e9e, 1, 0xdf); (0x1ea0, 0x1efe, 2, 0x1ea1); (0x1f08, 0x1f0f, 1, 0x1f00);
   (0x1f18, 0x1f1d, 1, 0x1f10); (0x1f28, 0x1f2f, 1, 0x1f20); (0x1f38, 0x1f3f, 1, 0x1f30);
   (0x1f48, 0x1f4d, 1, 0x1f40); (0x1f59, 0x1f5f, 2, 0x1f51); (0x1f68, 0x1f6f, 1, 0x1f60);
   (0x1f88, 0x1f8f, 1, 0x1f80); (0x1f98, 0x1f9f, 1, 0x1f90); (0x1fa8, 0x1faf, 1, 0x1fa0);
   (0x1fb8, 0x1fb9, 1, 0x1fb0); (0x1fba, 0x1fbb, 1, 0x1f70); (0x1fbc, 0x1fbc, 1, 0x1fb3);
   (0x1fc8, 0x1fcb, 1, 0x1f72); (0x1fcc, 0x1fcc, 1, 0x1fc3); (0x1fd8, 0x1fd9, 1, 0x1fd0);
   (0x1fda, 0x1fdb, 1, 0x1f76); (0x1fe8, 0x1fe9, 1, 0x1fe0); (0x1fea, 0x1feb, 1, 0x1f7a);
   (0x1fec, 0x1fec, 1, 0x1fe5); (0x1ff8, 0x1ff9, 1, 0x1f78); (0x1ffa, 0x1ffb, 1, 0x1f7c);
   (0x1ffc, 0x1ffc, 1, 0x1ff3); (0x2126, 0x2126, 1, 0x3c9); (0x212a, 0x212a, 1, 0x6b);
   (0x212b, 0x212b, 1, 0xe5); (0x2132, 0x2132, 1, 0x214e); (0x2160, 0x216f, 1, 0x2170);
   (0x2183, 0x2183, 1, 0x2184); (0x24b6, 0x24cf, 1, 0x24d0); (0x2c00, 0x2c2f, 1, 0x2c30);
   (0x2c60, 0x2c60, 1, 0x2c61); (0x2c62, 0x2c62, 1, 0x26b); (0x2c63, 0x2c63, 1, 0x1d7d);
   (0x2c64, 0x2c64, 1, 0x27d); (0x2c67, 0x2c6b, 2, 0x2c68); (0x2c6d, 0x2c6d, 1, 0x251);
   (0x2c6e, 0x2c6e, 1, 0x271); (0x2c6f, 0x2c6f, 1, 0x250); (0x2c70, 0x2c70, 1, 0x252);
   (0x2c72, 0x2c72, 1, 0x2c73); (0x2c75, 0x2c75, 1, 0x2c76); (0x2c7e, 0x2c7f, 1, 0x23f);
   (0x2c80, 0x2ce2, 2, 0x2c81); (0x2ceb, 0x2ced, 2, 0x2cec); (0x2cf2, 0x2cf2, 1, 0x2cf3);
   (0xa640, 0xa66c, 2, 0xa641); (0xa680, 0xa69a, 2, 0xa681); (0xa722, 0xa72e, 2, 0xa723);
   (0xa732, 0xa76e, 2, 0xa733); (0xa779, 0xa77b, 2, 0xa77a); (0xa77d, 0xa77d, 1, 0x1d79);
   (0xa77e, 0xa786, 2, 0xa77f); (0xa78b, 0xa78b, 1, 0xa78c); (0xa78d, 0xa78d, 1, 0x265);
   (0xa790, 0xa792, 2, 0xa791); (0xa796, 0xa7a8, 2, 0xa797); (0xa7aa, 0xa7aa, 1, 0x266);
   (0xa7ab, 0xa7ab, 1, 0x25c); (0xa7ac, 0xa7ac, 1, 0x261); (0xa7ad, 0xa7ad, 1, 0x26c);
   (0xa7ae, 0xa7ae, 1, 0x26a); (0xa7b0, 0xa7b0, 1, 0x29e); (0xa7b1, 0xa7b1, 1, 0x287);
   (0xa7b2, 0xa7b2, 1, 0x29d); (0xa7b3, 0xa7b3, 1, 0xab53); (0xa7b4, 0xa7c2, 2, 0xa7b5);
   (0xa7c4, 0xa7c4, 1, 0xa794); (0xa7c5, 0xa7c5, 1, 0x282); (0xa7c6, 0xa7c6, 1, 0x1d8e);
   (0xa7c7, 0xa7c9, 2, 0xa7c8); (0xa7d0, 0xa7d0, 1, 0xa7d1); (0xa7d6, 0xa7d8, 2, 0xa7d7);
   (0xa7f5, 0xa7f5, 1, 0xa7f6); (0xff21, 0xff3a, 1, 0xff41); (0x10400, 0x10427, 1, 0x10428);
   (0x104b0, 0x104d3, 1, 0x104d8); (0x10570, 0x1057a, 1, 0x10597); (0x1057c, 0x1058a, 1, 0x105a3);
   (0x1058c, 0x10592, 1, 0x105b3); (0x10594, 0x10595, 1, 0x105bb); (0x10c80, 0x10cb2, 1, 0x10cc0);
   (0x118a0, 0x118bf, 1, 0x118c0); (0x16e40, 0x16e5f, 1, 0x16e60); (0x1e900, 0x1e921, 1, 0x1e922)]%N.

(** The one character whose lower case is two characters long. *)
Definition lower_expansions : list (N * list N) :=
  [(0x130, [0x69; 0x307])]%N.

Definition title_table : list (N * N * N * N) :=
  [(0xb5, 0xb5, 1, 0x39c); (0xe0, 0xf6, 1, 0xc0); (0xf8, 0xfe, 1, 0xd8);
   (0xff, 0xff, 1, 0x178); (0x101, 0x12f, 2, 0x100); (0x131, 0x131, 1, 0x49);
   (0x133, 0x137, 2, 0x132); (0x13a, 0x148, 2, 0x139); (0x14b, 0x177, 2, 0x14a);
   (0x17a, 0x17e, 2, 0x179); (0x17f, 0x17f, 1, 0x53); (0x180, 0x180, 1, 0x243);
   (0x183, 0x185, 2, 0x182); (0x188, 0x188, 1, 0x187); (0x18c, 0x18c, 1, 0x18b);
   (0x192, 0x192, 1, 0x191); (0x195, 0x195, 1, 0x1f6); (0x199, 0x199, 1, 0x198);
   (0x19a, 0x19a, 1, 0x23d); (0x19e, 0x19e, 1, 0x220); (0x1a1, 0x1a5, 2, 0x1a0);
   (0x1a8, 0x1a8, 1, 0x1a7); (0x1ad, 0x1ad, 1, 0x1ac); (0x1b0, 0x1b0, 1, 0x1af);
   (0x1b4, 0x1b6, 2, 0x1b3); (0x1b9, 0x1b9, 1, 0x1b8); (0x1bd, 0x1bd, 1, 0x1bc);
   (0x1bf, 0x1bf, 1, 0x1f7); (0x1c4, 0x1c4, 1, 0x1c5); (0x1c6, 0x1c6, 1, 0x1c5);
   (0x1c7, 0x1c7, 1, 0x1c8); (0x1c9, 0x1c9, 1, 0x1c8); (0x1ca, 0x1ca, 1, 0x1cb);
   (0x1cc, 0x1dc, 2, 0x1cb); (0x1dd, 0x1dd, 1, 0x18e); (0x1df, 0x1ef, 2, 0x1de);
   (0x1f1, 0x1f1, 1, 0x1f2); (0x1f3, 0x1f5, 2, 0x1f2); (0x1f9, 0x21f, 2, 0x1f8);
   (0x223, 0x233, 2, 0x222); (0x23c, 0x23c, 1, 0x23b); (0x23f, 0x240, 1, 0x2c7e);
   (0x242, 0x242, 1, 0x241); (0x247, 0x24f, 2, 0x246); (0x250, 0x250, 1, 0x2c6f);
   (0x251, 0x251, 1, 0x2c6d); (0x252, 0x252, 1, 0x2c70); (0x253, 0x253, 1, 0x181);
   (0x254, 0x254, 1, 0x186); (0x256, 0x257, 1, 0x189); (0x259, 0x259, 1, 0x18f);
   (0x25b, 0x25b, 1, 0x190); (0x25c, 0x25c, 1, 0xa7ab); (0x260, 0x260, 1, 0x193);
   (0x261, 0x261, 1, 0xa7ac); (0x263, 0x263, 1, 0x194); (0x265, 0x265, 1, 0xa78d);
   (0x266, 0x266, 1, 0xa7aa); (0x268, 0x268, 1, 0x197); (0x269, 0x269, 1, 0x196);
   (0x26a, 0x26a, 1, 0xa7ae); (0x26b, 0x26b, 1, 0x2c62); (0x26c, 0x26c, 1, 0xa7ad);
   (0x26f, 0x26f, 1, 0x19c); (0x271, 0x271, 1, 0x2c6e); (0x272, 0x272, 1, 0x19d);
   (0x275, 0x275, 1, 0x19f); (0x27d, 0x27d, 1, 0x2c64); (0x280, 0x280, 1, 0x1a6);
   (0x282, 0x282, 1, 0xa7c5); (0x283, 0x283, 1, 0x1a9); (0x287, 0x287, 1, 0xa7b1);
   (0x288, 0x288, 1, 0x1ae); (0x289, 0x289, 1, 0x244); (0x28a, 0x28b, 1, 0x1b1);
   (0x28c, 0x28c, 1, 0x245); (0x292, 0x292, 1, 0x1b7); (0x29d, 0x29d, 1, 0xa7b2);
   (0x29e, 0x29e, 1, 0xa7b0); (0x345, 0x345, 1, 0x399); (0x371, 0x373, 2, 0x370);
   (0x377, 0x377, 1, 0x376); (0x37b, 0x37d, 1, 0x3fd); (0x3ac, 0x3ac, 1, 0x386);
   (0x3ad, 0x3af, 1, 0x388); (0x3b1, 0x3c1, 1, 0x391); (0x3c2, 0x3c2, 1, 0x3a3);
   (0x3c3, 0x3cb, 1, 0x3a3); (0x3cc, 0x3cc, 1, 0x38c); (0x3cd, 0x3ce, 1, 0x38e);
   (0x3d0, 0x3d0, 1, 0x392); (0x3d1, 0x3d1, 1, 0x398); (0x3d5, 0x3d5, 1, 0x3a6);
   (0x3d6, 0x3d6, 1, 0x3a0); (0x3d7, 0x3d7, 1, 0x3cf); (0x3d9, 0x3ef, 2, 0x3d8);
   (0x3f0, 0x3f0, 1, 0x39a); (0x3f1, 0x3f1, 1, 0x3a1); (0x3f2, 0x3f2, 1, 0x3f9);
   (0x3f3, 0x3f3, 1, 0x37f); (0x3f5, 0x3f5, 1, 0x395); (0x3f8, 0x3f8, 1, 0x3f7);
   (0x3fb, 0x3fb, 1, 0x3fa); (0x430, 0x44f, 1, 0x410); (0x450, 0x45f, 1, 0x400);
   (0x461, 0x481, 2, 0x460); (0x48b, 0x4bf, 2, 0x48a); (0x4c2, 0x4ce, 2, 0x4c1);
   (0x4cf, 0x4cf, 1, 0x4c0); (0x4d1, 0x52f, 2, 0x4d0); (0x561, 0x586, 1, 0x531);
   (0x13f8, 0x13fd, 1, 0x13f0); (0x1c80, 0x1c80, 1, 0x412); (0x1c81, 0x1c81, 1, 0x414);
   (0x1c82, 0x1c82, 1, 0x41e); (0x1c83, 0x1c84, 1, 0x421); (0x1c85, 0x1c85, 1, 0x422);
   (0x1c86, 0x1c86, 1, 0x42a); (0x1c87, 0x1c87, 1, 0x462); (0x1c88, 0x1c88, 1, 0xa64a);
   (0x1d79, 0x1d79, 1, 0xa77d); (0x1d7d, 0x1d7d, 1, 0x2c63); (0x1d8e, 0x1d8e, 1, 0xa7c6);
   (0x1e01, 0x1e95, 2, 0x1e00); (0x1e9b, 0x1e9b, 1, 0x1e60); (0x1ea1, 0x1eff, 2, 0x1ea0);
   (0x1f00, 0x1f07, 1, 0x1f08); (0x1f10, 0x1f15, 1, 0x1f18); (0x1f20, 0x1f27, 1, 0x1f28);
   (0x1f30, 0x1f37, 1, 0x1f38); (0x1f40, 0x1f45, 1, 0x1f48); (0x1f51, 0x1f57, 2, 0x1f59);
   (0x1f60, 0x1f67, 1, 0x1f68); (0x1f70, 0x1f71, 1, 0x1fba); (0x1f72, 0x1f75, 1, 0x1fc8);
   (0x1f76, 0x1f77, 1, 0x1fda); (0x1f78, 0x1f79, 1, 0x1ff8); (0x1f7a, 0x1f7b, 1, 0x1fea);
   (0x1f7c, 0x1f7d, 1, 0x1ffa); (0x1f80, 0x1f87, 1, 0x1f88); (0x1f90, 0x1f97, 1, 0x1f98);
   (0x1fa0, 0x1fa7, 1, 0x1fa8); (0x1fb0, 0x1fb1, 1, 0x1fb8); (0x1fb3, 0x1fb3, 1, 0x1fbc);
   (0x1fbe, 0x1fbe, 1, 0x399); (0x1fc3, 0x1fc3, 1, 0x1fcc); (0x1fd0, 0x1fd1, 1, 0x1fd8);
   (0x1fe0, 0x1fe1, 1, 0x1fe8); (0x1fe5, 0x1fe5, 1, 0x1fec); (0x1ff3, 0x1ff3, 1, 0x1ffc);
   (0x214e, 0x214e, 1, 0x2132); (0x2170, 0x217f, 1, 0x2160); (0x2184, 0x2184, 1, 0x2183);
   (0x24d0, 0x24e9, 1, 0x24b6); (0x2c30, 0x2c5f, 1, 0x2c00); (0x2c61, 0x2c61, 1, 0x2c60);
   (0x2c65, 0x2c65, 1, 0x23a); (0x2c66, 0x2c66, 1, 0x23e); (0x2c68, 0x2c6c, 2, 0x2c67);
   (0x2c73, 0x2c73, 1, 0x2c72); (0x2c76, 0x2c76, 1, 0x2c75); (0x2c81, 0x2ce3, 2, 0x2c80);
   (0x2cec, 0x2cee, 2, 0x2ceb); (0x2cf3, 0x2cf3, 1, 0x2cf2); (0x2d00, 0x2d25, 1, 0x10a0);
   (0x2d27, 0x2d27, 1, 0x10c7); (0x2d2d, 0x2d2d, 1, 0x10cd); (0xa641, 0xa66d, 2, 0xa640);
   (0xa681, 0xa69b, 2, 0xa680); (0xa723, 0xa72f, 2, 0xa722); (0xa733, 0xa76f, 2, 0xa732);
   (0xa77a, 0xa77c, 2, 0xa779); (0xa77f, 0xa787, 2, 0xa77e); (0xa78c, 0xa78c, 1, 0xa78b);
   (0xa791, 0xa793, 2, 0xa790); (0xa794, 0xa794, 1, 0xa7c4); (0xa797, 0xa7a9, 2, 0xa796);
   (0xa7b5, 0xa7c3, 2, 0xa7b4); (0xa7c8, 0xa7ca, 2, 0xa7c7); (0xa7d1, 0xa7d1, 1, 0xa7d0);
   (0xa7d7, 0xa7d9, 2, 0xa7d6); (0xa7f6, 0xa7f6, 1, 0xa7f5); (0xab53, 0xab53, 1, 0xa7b3);
   (0xab70, 0xabbf, 1, 0x13a0); (0xff41, 0xff5a, 1, 0xff21); (0x10428, 0x1044f, 1, 0x10400);
   (0x104d8, 0x104fb, 1, 0x104b0); (0x10597, 0x105a1, 1, 0x10570); (0x105a3, 0x105b1, 1, 0x1057c);
   (0x105b3, 0x105b9, 1, 0x1058c); (0x105bb, 0x105bc, 1, 0x10594); (0x10cc0, 0x10cf2, 1, 0x10c80);
   (0x118c0, 0x118df, 1, 0x118a0); (0x16e60, 0x16e7f, 1, 0x16e40); (0x1e922, 0x1e943, 1, 0x1e900)]%N.

(** Characters whose title case is more than one character long. *)
Definition title_expansions : list (N * list N) :=
  [(0xdf, [0x53; 0x73]); (0x149, [0x2bc; 0x4e]);
   (0x1f0, [0x4a; 0x30c]); (0x390, [0x399; 0x308; 0x301]);
   (0x3b0, [0x3a5; 0x308; 0x301]); (0x587, [0x535; 0x582]);
   (0x1e96, [0x48; 0x331]); (0x1e97, [0x54; 0x308]);
   (0x1e98, [0x57; 0x30a]); (0x1e99, [0x59; 0x30a]);
   (0x1e9a, [0x41; 0x2be]); (0x1f50, [0x3a5; 0x313]);
   (0x1f52, [0x3a5; 0x313; 0x300]); (0x1f54, [0x3a5; 0x313; 0x301]);
   (0x1f56, [0x3a5; 0x313; 0x342]); (0x1fb2, [0x1fba; 0x345]);
   (0x1fb4, [0x386; 0x345]); (0x1fb6, [0x391; 0x342]);
   (0x1fb7, [0x391; 0x342; 0x345]); (0x1fc2, [0x1fca; 0x345]);
   (0x1fc4, [0x389; 0x345]); (0x1fc6, [0x397; 0x342]);
   (0x1fc7, [0x397; 0x342; 0x345]); (0x1fd2, [0x399; 0x308; 0x300]);
   (0x1fd3, [0x399; 0x308; 0x301]); (0x1fd6, [0x399; 0x342]);
   (0x1fd7, [0x399; 0x308; 0x342]); (0x1fe2, [0x3a5; 0x308; 0x300]);
   (0x1fe3, [0x3a5; 0x308; 0x301]); (0x1fe4, [0x3a1; 0x313]);
   (0x1fe6, [0x3a5; 0x342]); (0x1fe7, [0x3a5; 0x308; 0x342]);
   (0x1ff2, [0x1ffa; 0x345]); (0x1ff4, [0x38f; 0x345]);
   (0x1ff6, [0x3a9; 0x342]); (0x1ff7, [0x3a9; 0x342; 0x345]);
   (0xfb00, [0x46; 0x66]); (0xfb01, [0x46; 0x69]);
   (0xfb02, [0x46; 0x6c]); (0xfb03, [0x46; 0x66; 0x69]);
   (0xfb04, [0x46; 0x66; 0x6c]); (0xfb05, [0x53; 0x74]);
   (0xfb06, [0x53; 0x74]); (0xfb13, [0x544; 0x576]);
   (0xfb14, [0x544; 0x565]); (0xfb15, [0x544; 0x56b]);
   (0xfb16, [0x54e; 0x576]); (0xfb17, [0x544; 0x56d])]%N.

(** Characters the rule of the final sigma looks through (accents,
    apostrophes, modifiers, format characters), as ranges. *)
Definition case_ignorable_ranges : list (N * N) :=
  [(0x27, 0x27); (0x2e, 0x2e); (0x3a, 0x3a); (0x5e, 0x5e);
   (0x60, 0x60); (0xa8, 0xa8); (0xad, 0xad); (0xaf, 0xaf);
   (0xb4, 0xb4); (0xb7, 0xb8); (0x2b0, 0x36f); (0x374, 0x375);
   (0x37a, 0x37a); (0x384, 0x385); (0x387, 0x387); (0x483, 0x489);
   (0x559, 0x559); (0x55f, 0x55f); (0x591, 0x5bd); (0x5bf, 0x5bf);
   (0x5c1, 0x5c2); (0x5c4, 0x5c5); (0x5c7, 0x5c7); (0x5f4, 0x5f4);
   (0x600, 0x605); (0x610, 0x61a); (0x61c, 0x61c); (0x640, 0x640);
   (0x64b, 0x65f); (0x670, 0x670); (0x6d6, 0x6dd); (0x6df, 0x6e8);
   (0x6ea, 0x6ed); (0x70f, 0x70f); (0x711, 0x711); (0x730, 0x74a);
   (0x7a6, 0x7b0); (0x7eb, 0x7f5); (0x7fa, 0x7fa); (0x7fd, 0x7fd);
   (0x816, 0x82d); (0x859, 0x85b); (0x888, 0x888); (0x890, 0x891);
   (0x898, 0x89f); (0x8c9, 0x902); (0x93a, 0x93a); (0x93c, 0x93c);
   (0x941, 0x948); (0x94d, 0x94d); (0x951, 0x957); (0x962, 0x963);
   (0x971, 0x971); (0x981, 0x981); (0x9bc, 0x9bc); (0x9c1, 0x9c4);
   (0x9cd, 0x9cd); (0x9e2, 0x9e3); (0x9fe, 0x9fe); (0xa01, 0xa02);
   (0xa3c, 0xa3c); (0xa41, 0xa42); (0xa47, 0xa48); (0xa4b, 0xa4d);
   (0xa51, 0xa51); (0xa70, 0xa71); (0xa75, 0xa75); (0xa81, 0xa82);
   (0xabc, 0xabc); (0xac1, 0xac5); (0xac7, 0xac8); (0xacd, 0xacd);
   (0xae2, 0xae3); (0xafa, 0xaff); (0xb01, 0xb01); (0xb3c, 0xb3c);
   (0xb3f, 0xb3f); (0xb41, 0xb44); (0xb4d, 0xb4d); (0xb55, 0xb56);
   (0xb62, 0xb63); (0xb82, 0xb82); (0xbc0, 0xbc0); (0xbcd, 0xbcd);
   (0xc00, 0xc00); (0xc04, 0xc04); (0xc3c, 0xc3c); (0xc3e, 0xc40);
   (0xc46, 0xc48); (0xc4a, 0xc4d); (0xc55, 0xc56); (0xc62, 0xc63);
   (0xc81, 0xc81); (0xcbc, 0xcbc); (0xcbf, 0xcbf); (0xcc6, 0xcc6);
   (0xccc, 0xccd); (0xce2, 0xce3); (0xd00, 0xd01); (0xd3b, 0xd3c);
   (0xd41, 0xd44); (0xd4d, 0xd4d); (0xd62, 0xd63); (0xd81, 0xd81);
   (0xdca, 0xdca); (0xdd2, 0xdd4); (0xdd6, 0xdd6); (0xe31, 0xe31);
   (0xe34, 0xe3a); (0xe46, 0xe4e); (0xeb1, 0xeb1); (0xeb4, 0xebc);
   (0xec6, 0xec6); (0xec8, 0xecd); (0xf18, 0xf19); (0xf35, 0xf35);
   (0xf37, 0xf37); (0xf39, 0xf39); (0xf71, 0xf7e); (0xf80, 0xf84);
   (0xf86, 0xf87); (0xf8d, 0xf97); (0xf99, 0xfbc); (0xfc6, 0xfc6);
   (0x102d, 0x1030); (0x1032, 0x1037); (0x1039, 0x103a); (0x103d, 0x103e);
   (0x1058, 0x1059); (0x105e, 0x1060); (0x1071, 0x1074); (0x1082, 0x1082);
   (0x1085, 0x1086); (0x108d, 0x108d); (0x109d, 0x109d); (0x10fc, 0x10fc);
   (0x135d, 0x135f); (0x1712, 0x1714); (0x1732, 0x1733); (0x1752, 0x1753);
   (0x1772, 0x1773); (0x17b4, 0x17b5); (0x17b7, 0x17bd); (0x17c6, 0x17c6);
   (0x17c9, 0x17d3); (0x17d7, 0x17d7); (0x17dd, 0x17dd); (0x180b, 0x180f);
   (0x1843, 0x1843); (0x1885, 0x1886); (0x18a9, 0x18a9); (0x1920, 0x1922);
   (0x1927, 0x1928); (0x1932, 0x1932); (0x1939, 0x193b); (0x1a17, 0x1a18);
   (0x1a1b, 0x1a1b); (0x1a56, 0x1a56); (0x1a58, 0x1a5e); (0x1a60, 0x1a60);
   (0x1a62, 0x1a62); (0x1a65, 0x1a6c); (0x1a73, 0x1a7c); (0x1a7f, 0x1a7f);
   (0x1aa7, 0x1aa7); (0x1ab0, 0x1ace); (0x1b00, 0x1b03); (0x1b34, 0x1b34);
   (0x1b36, 0x1b3a); (0x1b3c, 0x1b3c); (0x1b42, 0x1b42); (0x1b6b, 0x1b73);
   (0x1b80, 0x1b81); (0x1ba2, 0x1ba5); (0x1ba8, 0x1ba9); (0x1bab, 0x1bad);
   (0x1be6, 0x1be6); (0x1be8, 0x1be9); (0x1bed, 0x1bed); (0x1bef, 0x1bf1);
   (0x1c2c, 0x1c33); (0x1c36, 0x1c37); (0x1c78, 0x1c7d); (0x1cd0, 0x1cd2);
   (0x1cd4, 0x1ce0); (0x1ce2, 0x1ce8); (0x1ced, 0x1ced); (0x1cf4, 0x1cf4);
   (0x1cf8, 0x1cf9); (0x1d2c, 0x1d6a); (0x1d78, 0x1d78); (0x1d9b, 0x1dff);
   (0x1fbd, 0x1fbd); (0x1fbf, 0x1fc1); (0x1fcd, 0x1fcf); (0x1fdd, 0x1fdf);
   (0x1fed, 0x1fef); (0x1ffd, 0x1ffe); (0x200b, 0x200f); (0x2018, 0x2019);
   (0x2024, 0x2024); (0x2027, 0x2027); (0x202a, 0x202e); (0x2060, 0x2064);
   (0x2066, 0x206f); (0x2071, 0x2071); (0x207f, 0x207f); (0x2090, 0x209c);
   (0x20d0, 0x20f0); (0x2c7c, 0x2c7d); (0x2cef, 0x2cf1); (0x2d6f, 0x2d6f);
   (0x2d7f, 0x2d7f); (0x2de0, 0x2dff); (0x2e2f, 0x2e2f); (0x3005, 0x3005);
   (0x302a, 0x302d); (0x3031, 0x3035); (0x303b, 0x303b); (0x3099, 0x309e);
   (0x30fc, 0x30fe); (0xa015, 0xa015); (0xa4f8, 0xa4fd); (0xa60c, 0xa60c);
   (0xa66f, 0xa672); (0xa674, 0xa67d); (0xa67f, 0xa67f); (0xa69c, 0xa69f);
   (0xa6f0, 0xa6f1); (0xa700, 0xa721); (0xa770, 0xa770); (0xa788, 0xa78a);
   (0xa7f2, 0xa7f4); (0xa7f8, 0xa7f9); (0xa802, 0xa802); (0xa806, 0xa806);
   (0xa80b, 0xa80b); (0xa825, 0xa826); (0xa82c, 0xa82c); (0xa8c4, 0xa8c5);
   (0xa8e0, 0xa8f1); (0xa8ff, 0xa8ff); (0xa926, 0xa92d); (0xa947, 0xa951);
   (0xa980, 0xa982); (0xa9b3, 0xa9b3); (0xa9b6, 0xa9b9); (0xa9bc, 0xa9bd);
   (0xa9cf, 0xa9cf); (0xa9e5, 0xa9e6); (0xaa29, 0xaa2e); (0xaa31, 0xaa32);
   (0xaa35, 0xaa36); (0xaa43, 0xaa43); (0xaa4c, 0xaa4c); (0xaa70, 0xaa70);
   (0xaa7c, 0xaa7c); (0xaab0, 0xaab0); (0xaab2, 0xaab4); (0xaab7, 0xaab8);
   (0xaabe, 0xaabf); (0xaac1, 0xaac1); (0xaadd, 0xaadd); (0xaaec, 0xaaed);
   (0xaaf3, 0xaaf4); (0xaaf6, 0xaaf6); (0xab5b, 0xab5f); (0xab69, 0xab6b);
   (0xabe5, 0xabe5); (0xabe8, 0xabe8); (0xabed, 0xabed); (0xfb1e, 0xfb1e);
   (0xfbb2, 0xfbc2); (0xfe00, 0xfe0f); (0xfe13, 0xfe13); (0xfe20, 0xfe2f);
   (0xfe52, 0xfe52); (0xfe55, 0xfe55); (0xfeff, 0xfeff); (0xff07, 0xff07);
   (0xff0e, 0xff0e); (0xff1a, 0xff1a); (0xff3e, 0xff3e); (0xff40, 0xff40);
   (0xff70, 0xff70); (0xff9e, 0xff9f); (0xffe3, 0xffe3); (0xfff9, 0xfffb);
   (0x101fd, 0x101fd); (0x102e0, 0x102e0); (0x10376, 0x1037a); (0x10780, 0x10785);
   (0x10787, 0x107b0); (0x107b2, 0x107ba); (0x10a01, 0x10a03); (0x10a05, 0x10a06);
   (0x10a0c, 0x10a0f); (0x10a38, 0x10a3a); (0x10a3f, 0x10a3f); (0x10ae5, 0x10ae6);
   (0x10d24, 0x10d27); (0x10eab, 0x10eac); (0x10f46, 0x10f50); (0x10f82, 0x10f85);
   (0x11001, 0x11001); (0x11038, 0x11046); (0x11070, 0x11070); (0x11073, 0x11074);
   (0x1107f, 0x11081); (0x110b3, 0x110b6); (0x110b9, 0x110ba); (0x110bd, 0x110bd);
   (0x110c2, 0x110c2); (0x110cd, 0x110cd); (0x11100, 0x11102); (0x11127, 0x1112b);
   (0x1112d, 0x11134); (0x11173, 0x11173); (0x11180, 0x11181); (0x111b6, 0x111be);
   (0x111c9, 0x111cc); (0x111cf, 0x111cf); (0x1122f, 0x11231); (0x11234, 0x11234);
   (0x11236, 0x11237); (0x1123e, 0x1123e); (0x112df, 0x112df); (0x112e3, 0x112ea);
   (0x11300, 0x11301); (0x1133b, 0x1133c); (0x11340, 0x11340); (0x11366, 0x1136c);
   (0x11370, 0x11374); (0x11438, 0x1143f); (0x11442, 0x11444); (0x11446, 0x11446);
   (0x1145e, 0x1145e); (0x114b3, 0x114b8); (0x114ba, 0x114ba); (0x114bf, 0x114c0);
   (0x114c2, 0x114c3); (0x115b2, 0x115b5); (0x115bc, 0x115bd); (0x115bf, 0x115c0);
   (0x115dc, 0x115dd); (0x11633, 0x1163a); (0x1163d, 0x1163d); (0x1163f, 0x11640);
   (0x116ab, 0x116ab); (0x116ad, 0x116ad); (0x116b0, 0x116b5); (0x116b7, 0x116b7);
   (0x1171d, 0x1171f); (0x11722, 0x11725); (0x11727, 0x1172b); (0x1182f, 0x11837);
   (0x11839, 0x1183a); (0x1193b, 0x1193c); (0x1193e, 0x1193e); (0x11943, 0x11943);
   (0x119d4, 0x119d7); (0x119da, 0x119db); (0x119e0, 0x119e0); (0x11a01, 0x11a0a);
   (0x11a33, 0x11a38); (0x11a3b, 0x11a3e); (0x11a47, 0x11a47); (0x11a51, 0x11a56);
   (0x11a59, 0x11a5b); (0x11a8a, 0x11a96); (0x11a98, 0x11a99); (0x11c30, 0x11c36);
   (0x11c38, 0x11c3d); (0x11c3f, 0x11c3f); (0x11c92, 0x11ca7); (0x11caa, 0x11cb0);
   (0x11cb2, 0x11cb3); (0x11cb5, 0x11cb6); (0x11d31, 0x11d36); (0x11d3a, 0x11d3a);
   (0x11d3c, 0x11d3d); (0x11d3f, 0x11d45); (0x11d47, 0x11d47); (0x11d90, 0x11d91);
   (0x11d95, 0x11d95); (0x11d97, 0x11d97); (0x11ef3, 0x11ef4); (0x13430, 0x13438);
   (0x16af0, 0x16af4); (0x16b30, 0x16b36); (0x16b40, 0x16b43); (0x16f4f, 0x16f4f);
   (0x16f8f, 0x16f9f); (0x16fe0, 0x16fe1); (0x16fe3, 0x16fe4); (0x1aff0, 0x1aff3);
   (0x1aff5, 0x1affb); (0x1affd, 0x1affe); (0x1bc9d, 0x1bc9e); (0x1bca0, 0x1bca3);
   (0x1cf00, 0x1cf2d); (0x1cf30, 0x1cf46); (0x1d167, 0x1d169); (0x1d173, 0x1d182);
   (0x1d185, 0x1d18b); (0x1d1aa, 0x1d1ad); (0x1d242, 0x1d244); (0x1da00, 0x1da36);
   (0x1da3b, 0x1da6c); (0x1da75, 0x1da75); (0x1da84, 0x1da84); (0x1da9b, 0x1da9f);
   (0x1daa1, 0x1daaf); (0x1e000, 0x1e006); (0x1e008, 0x1e018); (0x1e01b, 0x1e021);
   (0x1e023, 0x1e024); (0x1e026, 0x1e02a); (0x1e130, 0x1e13d); (0x1e2ae, 0x1e2ae);
   (0x1e2ec, 0x1e2ef); (0x1e8d0, 0x1e8d6); (0x1e944, 0x1e94b); (0x1f3fb, 0x1f3ff);
   (0xe0001, 0xe0001); (0xe0020, 0xe007f); (0xe0100, 0xe01ef)]%N.

(** Letters that have a case, among the characters not looked through. *)
Definition cased_ranges : list (N * N) :=
  [(0x41, 0x5a); (0x61, 0x7a); (0xaa, 0xaa); (0xb5, 0xb5);
   (0xba, 0xba); (0xc0, 0xd6); (0xd8, 0xf6); (0xf8, 0x1ba);
   (0x1bc, 0x1bf); (0x1c4, 0x293); (0x295, 0x2af); (0x370, 0x373);
   (0x376, 0x377); (0x37b, 0x37d); (0x37f, 0x37f); (0x386, 0x386);
   (0x388, 0x38a); (0x38c, 0x38c); (0x38e, 0x3a1); (0x3a3, 0x3f5);
   (0x3f7, 0x481); (0x48a, 0x52f); (0x531, 0x556); (0x560, 0x588);
   (0x10a0, 0x10c5); (0x10c7, 0x10c7); (0x10cd, 0x10cd); (0x10d0, 0x10fa);
   (0x10fd, 0x10ff); (0x13a0, 0x13f5); (0x13f8, 0x13fd); (0x1c80, 0x1c88);
   (0x1c90, 0x1cba); (0x1cbd, 0x1cbf); (0x1d00, 0x1d2b); (0x1d6b, 0x1d77);
   (0x1d79, 0x1d9a); (0x1e00, 0x1f15); (0x1f18, 0x1f1d); (0x1f20, 0x1f45);
   (0x1f48, 0x1f4d); (0x1f50, 0x1f57); (0x1f59, 0x1f59); (0x1f5b, 0x1f5b);
   (0x1f5d, 0x1f5d); (0x1f5f, 0x1f7d); (0x1f80, 0x1fb4); (0x1fb6, 0x1fbc);
   (0x1fbe, 0x1fbe); (0x1fc2, 0x1fc4); (0x1fc6, 0x1fcc); (0x1fd0, 0x1fd3);
   (0x1fd6, 0x1fdb); (0x1fe0, 0x1fec); (0x1ff2, 0x1ff4); (0x1ff6, 0x1ffc);
   (0x2102, 0x2102); (0x2107, 0x2107); (0x210a, 0x2113); (0x2115, 0x2115);
   (0x2119, 0x211d); (0x2124, 0x2124); (0x2126, 0x2126); (0x2128, 0x2128);
   (0x212a, 0x212d); (0x212f, 0x2134); (0x2139, 0x2139); (0x213c, 0x213f);
   (0x2145, 0x2149); (0x214e, 0x214e); (0x2160, 0x217f); (0x2183, 0x2184);
   (0x24b6, 0x24e9); (0x2c00, 0x2c7b); (0x2c7e, 0x2ce4); (0x2ceb, 0x2cee);
   (0x2cf2, 0x2cf3); (0x2d00, 0x2d25); (0x2d27, 0x2d27); (0x2d2d, 0x2d2d);
   (0xa640, 0xa66d); (0xa680, 0xa69b); (0xa722, 0xa76f); (0xa771, 0xa787);
   (0xa78b, 0xa78e); (0xa790, 0xa7ca); (0xa7d0, 0xa7d1); (0xa7d3, 0xa7d3);
   (0xa7d5, 0xa7d9); (0xa7f5, 0xa7f6); (0xa7fa, 0xa7fa); (0xab30, 0xab5a);
   (0xab60, 0xab68); (0xab70, 0xabbf); (0xfb00, 0xfb06); (0xfb13, 0xfb17);
   (0xff21, 0xff3a); (0xff41, 0xff5a); (0x10400, 0x1044f); (0x104b0, 0x104d3);
   (0x104d8, 0x104fb); (0x10570, 0x1057a); (0x1057c, 0x1058a); (0x1058c, 0x10592);
   (0x10594, 0x10595); (0x10597, 0x105a1); (0x105a3, 0x105b1); (0x105b3, 0x105b9);
   (0x105bb, 0x105bc); (0x10c80, 0x10cb2); (0x10cc0, 0x10cf2); (0x118a0, 0x118df);
   (0x16e40, 0x16e7f); (0x1d400, 0x1d454); (0x1d456, 0x1d49c); (0x1d49e, 0x1d49f);
   (0x1d4a2, 0x1d4a2); (0x1d4a5, 0x1d4a6); (0x1d4a9, 0x1d4ac); (0x1d4ae, 0x1d4b9);
   (0x1d4bb, 0x1d4bb); (0x1d4bd, 0x1d4c3); (0x1d4c5, 0x1d505); (0x1d507, 0x1d50a);
   (0x1d50d, 0x1d514); (0x1d516, 0x1d51c); (0x1d51e, 0x1d539); (0x1d53b, 0x1d53e);
   (0x1d540, 0x1d544); (0x1d546, 0x1d546); (0x1d54a, 0x1d550); (0x1d552, 0x1d6a5);
   (0x1d6a8, 0x1d6c0); (0x1d6c2, 0x1d6da); (0x1d6dc, 0x1d6fa); (0x1d6fc, 0x1d714);
   (0x1d716, 0x1d734); (0x1d736, 0x1d74e); (0x1d750, 0x1d76e); (0x1d770, 0x1d788);
   (0x1d78a, 0x1d7a8); (0x1d7aa, 0x1d7c2); (0x1d7c4, 0x1d7cb); (0x1df00, 0x1df09);
   (0x1df0b, 0x1df1e); (0x1e900, 0x1e943); (0x1f130, 0x1f149); (0x1f150, 0x1f169);
   (0x1f170, 0x1f189)]%N.

Fixpoint in_ranges (ranges : list (N * N)) (cp : N) : bool :=
  match ranges with
  | [] => false
  | (first, last) :: rest =>
      ((first <=? cp) && (cp <=? last))%N || in_ranges rest cp
  end.

Fixpoint image_in (table : list (N * N * N * N)) (cp : N) : option N :=
  match table with
  | [] => None
  | (first, last, step, image) :: rest =>
      if ((first <=? cp) && (cp <=? last) && ((cp - first) mod step =? 0))%N
      then Some (image + (cp - first))%N
      else image_in rest cp
  end.

Fixpoint expansion_in (table : list (N * list N)) (cp : N) : option (list N) :=
  match table with
  | [] => None
  | (key, image) :: rest => if (key =? cp)%N then Some image else expansion_in rest cp
  end.

(** The six bits that a continuation byte [10xxxxxx] carries. *)
Definition continuation (c : ascii) : option N :=
  let n := N_of_ascii c in
  if ((0x80 <=? n) && (n <? 0xc0))%N then Some (n - 0x80)%N else None.

(** A byte that belongs to no character is kept apart from every code
    point, so that it comes back as it was. *)
Definition stray (c : ascii) : N := (0x110000 + N_of_ascii c)%N.

(** The code points of a text, from its UTF-8 bytes. *)
Fixpoint decode (s : string) : list N :=
  match s with
  | EmptyString => []
  | String b0 s1 =>
      let n0 := N_of_ascii b0 in
      if (n0 <? 0x80)%N then n0 :: decode s1
      else
        let alone := stray b0 :: decode s1 in
        match s1 with
        | EmptyString => alone
        | String b1 s2 =>
            match continuation b1 with
            | None => alone
            | Some p1 =>
                if ((0xc2 <=? n0) && (n0 <=? 0xdf))%N
                then ((n0 - 0xc0) * 0x40 + p1)%N :: decode s2
                else
                  match s2 with
                  | EmptyString => alone
                  | String b2 s3 =>
                      match continuation b2 with
                      | None => alone
                      | Some p2 =>
                          let cp3 := (((n0 - 0xe0) * 0x40 + p1) * 0x40 + p2)%N in
                          if ((0xe0 <=? n0) && (n0 <=? 0xef) && (0x800 <=? cp3)
                              && negb ((0xd800 <=? cp3) && (cp3 <=? 0xdfff)))%N
                          then cp3 :: decode s3
                          else
                            match s3 with
                            | EmptyString => alone
                            | String b3 s4 =>
                                match continuation b3 with
                                | None => alone
                                | Some p3 =>
                                    let cp4 :=
                                      ((((n0 - 0xf0) * 0x40 + p1) * 0x40 + p2) * 0x40
                                       + p3)%N in
                                    if ((0xf0 <=? n0) && (n0 <=? 0xf4)
                                        && (0x10000 <=? cp4) && (cp4 <? 0x110000))%N
                                    then cp4 :: decode s4
                                    else alone
                                end
                            end
                      end
                  end
            end
        end
  end.

Definition byte (n : N) : ascii := ascii_of_N n.

(** The UTF-8 bytes of a code point. *)
Definition encode_point (cp : N) : string :=
  if (cp <? 0x80)%N then String (byte cp) EmptyString
  else if (cp <? 0x800)%N then
    String (byte (0xc0 + cp / 0x40))
      (String (byte (0x80 + cp mod 0x40)) EmptyString)
  else if (cp <? 0x10000)%N then
    String (byte (0xe0 + cp / 0x1000))
      (String (byte (0x80 + (cp / 0x40) mod 0x40))
         (String (byte (0x80 + cp mod 0x40)) EmptyString))
  else if (cp <? 0x110000)%N then
    String (byte (0xf0 + cp / 0x40000))
      (String (byte (0x80 + (cp / 0x1000) mod 0x40))
         (String (byte (0x80 + (cp / 0x40) mod 0x40))
            (String (byte (0x80 + cp mod 0x40)) EmptyString)))
  else String (byte (cp - 0x110000)) EmptyString.

Fixpoint encode (points : list N) : string :=
  match points with
  | [] => EmptyString
  | cp :: rest => encode_point cp ++ encode rest
  end.

(** The lower case of a character, away from any context. *)
Definition lower_point (cp : N) : list N :=
  if (cp <? 0x80)%N then [N_of_ascii (lower_char (ascii_of_N cp))]
  else
    match expansion_in lower_expansions cp with
    | Some image => image
    | None =>
        match image_in lower_table cp with
        | Some image => [image]
        | None => [cp]
        end
    end.

(** The title case of a character: its upper case, but for the few letters
    that stand for two (the title case of U+01C6 is U+01C5, of U+00DF "Ss"). *)
Definition title_point (cp : N) : list N :=
  if (cp <? 0x80)%N then [N_of_ascii (upper_char (ascii_of_N cp))]
  else
    match expansion_in title_expansions cp with
    | Some image => image
    | None =>
        match image_in title_table cp with
        | Some image => [image]
        | None => [cp]
        end
    end.

Definition case_ignorable (cp : N) : bool := in_ranges case_ignorable_ranges cp.

Definition cased (cp : N) : bool := in_ranges cased_ranges cp.

Fixpoint skip_ignorable (points : list N) : list N :=
  match points with
  | [] => []
  | cp :: rest => if case_ignorable cp then skip_ignorable rest else points
  end.

(** A capital sigma is final when a cased letter comes before it and none
    comes after it, characters that are looked through apart.  [before] is
    what precedes the sigma, nearest first. *)
Definition final_sigma (before after : list N) : bool :=
  match skip_ignorable before with
  | [] => false
  | cp :: _ =>
      cased cp &&
      match skip_ignorable after with
      | [] => true
      | next :: _ => negb (cased next)
      end
  end.

(** The lower case of the characters [points] that follow [before] (given
    nearest first). *)
Fixpoint lower_points (before points : list N) : list N :=
  match points with
  | [] => []
  | cp :: rest =>
      (if (cp =? 0x3a3)%N
       then [if final_sigma before rest then 0x3c2 else 0x3c3]%N
       else lower_point cp)
      ++ lower_points (cp :: before) rest
  end.

(** [s.capitalize()]: the first character in title case, the others in
    lower case. *)
Definition capitalize (s : string) : string :=
  match decode s with
  | [] => EmptyString
  | first :: rest => encode (title_point first ++ lower_points [first] rest)
  end.


(** [sub in s] *)
Fixpoint contains (sub s : string) : bool :=
  prefix sub s ||
  match s with
  | EmptyString => false
  | String _ s' => contains sub s'
  end.

(** [s.replace(old, new)] for a non-empty [old]: the non-overlapping
    occurrences of [old], found left to right, are replaced.  [skip] counts
    the characters of a matched occurrence still to be dropped. *)
Fixpoint replace_from (old new : string) (skip : nat) (s : string) : string :=
  match s with
  | EmptyString => EmptyString
  | String c s' =>
      match skip with
      | S k => replace_from old new k s'
      | O =>
          if prefix old s
          then new ++ replace_from old new (String.length old - 1) s'
          else String c (replace_from old new 0 s')
      end
  end.

(** With an empty [old] Python inserts [new] before every character and at
    the end. *)
Fixpoint intersperse (new s : string) : string :=
  match s with
  | EmptyString => new
  | String c s' => new ++ String c (intersperse new s')
  end.

Definition replace (old new s : string) : string :=
  match old with
  | EmptyString => intersperse new s
  | _ => replace_from old new 0 s
  end.

(** Whitespace of [str.isspace] in the ASCII range: tab, line feed,
    vertical tab, form feed, carriage return, the four separators
    0x1c-0x1f, and space. *)
Definition is_space (c : ascii) : bool :=
  let n := nat_of_ascii c in
  ((9 <=? n)%nat && (n <=? 13)%nat) || ((28 <=? n)%nat && (n <=? 32)%nat).

Fixpoint lstrip (s : string) : string :=
  match s with
  | EmptyString => EmptyString
  | String c s' => if is_space c then lstrip s' else s
  end.

(** [rstrip] keeps a character when it is not a space or when something
    remains after stripping what follows it. *)
Fixpoint rstrip (s : string) : string :=
  match s with
  | EmptyString => EmptyString
  | String c s' =>
      match rstrip s' with
      | EmptyString => if is_space c then EmptyString else String c EmptyString
      | r => String c r
      end
  end.

(** [s.strip()] *)
Definition strip (s : string) : string := rstrip (lstrip s).

(** A byte [10xxxxxx] continues a character of the UTF-8 encoding. *)
Definition is_continuation (c : ascii) : bool :=
  let n := nat_of_ascii c in (128 <=? n)%nat && (n <? 192)%nat.

(** [s[:n]]: the first [n] characters, each with its continuation bytes. *)
Fixpoint slice_to (n : nat) (s : string) : string :=
  match s with
  | EmptyString => EmptyString
  | String c s' =>
      if is_continuation c then String c (slice_to n s')
      else
        match n with
        | O => EmptyString
        | S k => String c (slice_to k s')
        end
  end.

(** [sep.join(items)] *)
Definition join (sep : string) (items : list string) : string :=
  String.concat sep items.

(** Truthiness of a [str]: [not s] holds of the empty string only. *)
Definition is_empty (s : string) : bool :=
  match s with EmptyString => true | _ => false end.

End PyStr.

Import PyStr.

(** ** Values decoded from JSON, and how Python prints them *)

(** A Python [float], given by the decimal numeral that [repr] prints for it:
    sign, the digits as a number, and a power of ten; the value is
    [(-1)^neg * digits * 10^exp10].  Not-a-number and the infinities are
    accepted by Python's JSON decoder too. *)
Inductive pyfloat : Type :=
| FNan
| FInf (neg : bool)
| FDec (neg : bool) (digits : N) (exp10 : Z).

Inductive json : Type :=
| JNull
| JBool (b : bool)
| JInt (z : Z)
| JFloat (f : pyfloat)
| JStr (s : string)
| JArr (items : list json)
| JObj (fields : list (string * json)).

Module PyFmt.

Definition digits_of (n : N) : string := NilZero.string_of_uint (N.to_uint n).

(** [str] of an [int] *)
Definition str_int (z : Z) : string :=
  match z with
  | Zneg p => "-" ++ digits_of (Npos p)
  | _ => digits_of (Z.to_N z)
  end.

Fixpoint drop_trailing_zeros (s : string) : string :=
  match s with
  | EmptyString => EmptyString
  | String c s' =>
      match drop_trailing_zeros s' with
      | EmptyString => if Ascii.eqb c "0" then EmptyString else String c EmptyString
      | r => String c r
      end
  end.

Fixpoint zeros (n : nat) : string :=
  match n with
  | O => EmptyString
  | S k => String "0" (zeros k)
  end.

(** [repr] of a finite non-zero float from its significant digits [ds] and
    the position [decpt] of the decimal point (the value is [0.ds * 10^decpt]):
    positional notation when [-4 < decpt <= 16], exponent notation otherwise,
    the exponent written with at least two digits. *)
Definition repr_digits (ds : string) (decpt : Z) : string :=
  let n := Z.of_nat (String.length ds) in
  if ((decpt <=? -4) || (16 <? decpt))%Z then
    let mant :=
      match ds with
      | String d EmptyString => String d EmptyString
      | String d rest => String d ("." ++ rest)
      | EmptyString => EmptyString
      end in
    let e := (decpt - 1)%Z in
    let ed := digits_of (Z.to_N (Z.abs e)) in
    let ed := if (String.length ed <? 2)%nat then "0" ++ ed else ed in
    mant ++ "e" ++ (if (e <? 0)%Z then "-" else "+") ++ ed
  else if (decpt <=? 0)%Z then
    "0." ++ zeros (Z.to_nat (- decpt)) ++ ds
  else if (n <=? decpt)%Z then
    ds ++ zeros (Z.to_nat (decpt - n)) ++ ".0"
  else
    substring 0 (Z.to_nat decpt) ds ++ "." ++
    substring (Z.to_nat decpt) (Z.to_nat (n - decpt)) ds.

(** [repr] (and [str]) of a [float] *)
Definition repr_float (f : pyfloat) : string :=
  match f with
  | FNan => "nan"
  | FInf neg => if neg then "-inf" else "inf"
  | FDec neg m e =>
      (if neg then "-" else "") ++
      match m with
      | N0 => "0.0"
      | _ =>
          let all := digits_of m in
          repr_digits (drop_trailing_zeros all) (Z.of_nat (String.length all) + e)
      end
  end.

Definition hex_digit (n : nat) : ascii :=
  if (n <? 10)%nat then ascii_of_nat (48 + n) else ascii_of_nat (87 + n).

(** One character of the [repr] of a [str] quoted with [q]. *)
Definition escape_char (q c : ascii) : string :=
  let n := nat_of_ascii c in
  if Ascii.eqb c "\"%char then "\\"
  else if Ascii.eqb c q then String "\"%char (String q EmptyString)
  else if (n =? 9)%nat then "\t"
  else if (n =? 10)%nat then "\n"
  else if (n =? 13)%nat then "\r"
  else if ((n <? 32) || (n =? 127))%nat then
    "\x" ++ String (hex_digit (n / 16)) (String (hex_digit (n mod 16)) EmptyString)
  else String c EmptyString.

Fixpoint escape (q : ascii) (s : string) : string :=
  match s with
  | EmptyString => EmptyString
  | String c s' => escape_char q c ++ escape q s'
  end.

(** [repr] of a [str]: single quotes, unless the text has a single quote and
    no double quote. *)
Definition repr_str (s : string) : string :=
  let dq := ascii_of_nat 34 in
  let q := if contains "'" s && negb (contains (String dq EmptyString) s)
           then dq else "'"%char in
  String q (escape q s ++ String q EmptyString).

(** [repr] of a decoded JSON value *)
Fixpoint repr (v : json) : string :=
  match v with
  | JNull => "None"
  | JBool b => if b then "True" else "False"
  | JInt z => str_int z
  | JFloat f => repr_float f
  | JStr s => repr_str s
  | JArr items => "[" ++ join ", " (map repr items) ++ "]"
  | JObj fields =>
      "{" ++ join ", " (map (fun kv => repr_str (fst kv) ++ ": " ++ repr (snd kv)) fields) ++ "}"
  end.

(** What an f-string field [{v}] prints: [str(v)]. *)
Definition str (v : json) : string :=
  match v with
  | JStr s => s
  | _ => repr v
  end.

End PyFmt.

Import PyFmt.

(** ** Exceptions, effects and the environment *)

(** The exception classes the program can meet; each one derives from
    Python's [Exception].  [UnknownValueError], [RequestError] and
    [WaitTimeoutError] are those of the speech-recognition library (speech
    not understood, transcription service unreachable, no phrase started
    within the capture timeout); [DisambiguationError] and [PageError] are
    those of the encyclopedia library. *)
Inductive exn : Type :=
| UnknownValueError
| RequestError
| WaitTimeoutError
| DisambiguationError (options : list string)
| PageError
| KeyError
| IndexError
| TypeError
| OtherException (name : string).

(** Calls on the speech-output device: the SAPI voice, or a pyttsx3 engine. *)
Inductive device_op : Type :=
| SapiSpeak (text : string)
| EngineInit
| SetProperty (name value : string)
| Say (text : string)
| RunAndWait
| Stop.

(** Calls on the microphone and the recognizer's audio capture. *)
Inductive audio_op : Type :=
| OpenMicrophone
| AdjustForAmbientNoise
| Listen (timeout phrase_time_limit : nat).

(** What the program does to the outside world, in order.  A device event
    records whether [engine_lock] was held when the device was called. *)
Inductive event : Type :=
| EPrint (line : string)
| EPrintExn (prefix : string) (e : exn)
| ETraceback (e : exn)
| EAcquire
| ERelease
| EDevice (op : device_op) (guarded : bool)
| EPlaysound (file : string)
| EAudio (op : audio_op)
| ETranscribe
| EHttpGet (url : string)
| EWikiSetLang (lang : string)
| EWikiSummary (query : string) (sentences : nat)
| EGenerate (prompt : string) (max_length num_return_sequences : nat).

(** [requests.get(url)] followed by [response.json()]. *)
Inductive http_result : Type :=
| HttpRaises (e : exn)
| JsonRaises (e : exn)
| Decoded (data : json).

(** The module-level globals fixed at start-up and the behaviour of the
    external collaborators.  Every collaborator sees the history of events so
    far, so that it may answer differently from one call to the next. *)
Record env : Type := {
  USE_WIN32 : bool;
  VOICE_ID : option string;
  generator : option (list event -> string -> exn + string);
  tts : list event -> device_op -> option exn;
  path_exists : string -> bool;
  playsound : list event -> string -> option exn;
  audio : list event -> audio_op -> option exn;
  recognize_google : list event -> exn + string;
  requests_get : list event -> string -> http_result;
  wikipedia_summary : list event -> string -> nat -> exn + string
}.

Record state : Type := {
  engine_lock : bool;
  trace : list event
}.

(** How a call ends: it returns, it raises, or it waits for ever on a lock
    that is never released. *)
Inductive res (A : Type) : Type :=
| Ret (a : A)
| Raise (e : exn)
| Deadlock.

Arguments Ret {A} a.
Arguments Raise {A} e.
Arguments Deadlock {A}.

Definition M (A : Type) : Type := state -> res A * state.

Definition ret {A} (a : A) : M A := fun st => (Ret a, st).

Definition raise {A} (e : exn) : M A := fun st => (Raise e, st).

Definition bind {A B} (m : M A) (k : A -> M B) : M B :=
  fun st =>
    match m st with
    | (Ret a, st') => k a st'
    | (Raise e, st') => (Raise e, st')
    | (Deadlock, st') => (Deadlock, st')
    end.

Notation "x <- m ;; k" := (bind m (fun x => k))
  (at level 61, m at next level, right associativity).
Notation "m ;; k" := (bind m (fun _ => k))
  (at level 61, right associativity).

Definition record (e : event) (st : state) : state :=
  {| engine_lock := engine_lock st; trace := trace st ++ [e] |}.

Definition emit (e : event) : M unit := fun st => (Ret tt, record e st).

Definition print (line : string) : M unit := emit (EPrint line).

(** [try: body  except Exception as e: handler e] *)
Definition try_except {A} (body : M A) (handler : exn -> M A) : M A :=
  fun st =>
    match body st with
    | (Raise e, st') => handler e st'
    | r => r
    end.

Definition acquire : M unit := fun st =>
  if engine_lock st then (Deadlock, st)
  else (Ret tt, record EAcquire {| engine_lock := true; trace := trace st |}).

Definition release (st : state) : state :=
  record ERelease {| engine_lock := false; trace := trace st |}.

(** [with engine_lock: body]: the lock is released when the body returns and
    when it raises. *)
Definition with_lock {A} (body : M A) : M A :=
  fun st =>
    match acquire st with
    | (Ret _, st1) =>
        match body st1 with
        | (Ret a, st2) => (Ret a, release st2)
        | (Raise e, st2) => (Raise e, release st2)
        | (Deadlock, st2) => (Deadlock, st2)
        end
    | (Raise e, st1) => (Raise e, st1)
    | (Deadlock, st1) => (Deadlock, st1)
    end.

(** A call on the speech-output device. *)
Definition device (E : env) (op : device_op) : M unit := fun st =>
  let st' := record (EDevice op (engine_lock st)) st in
  match tts E (trace st) op with
  | None => (Ret tt, st')
  | Some e => (Raise e, st')
  end.

Definition audio_call (E : env) (op : audio_op) : M unit := fun st =>
  let st' := record (EAudio op) st in
  match audio E (trace st) op with
  | None => (Ret tt, st')
  | Some e => (Raise e, st')
  end.

Definition transcribe (E : env) : M string := fun st =>
  let st' := record ETranscribe st in
  match recognize_google E (trace st) with
  | inr query => (Ret query, st')
  | inl e => (Raise e, st')
  end.

Definition playsound_call (E : env) (file : string) : M unit := fun st =>
  let st' := record (EPlaysound file) st in
  match playsound E (trace st) file with
  | None => (Ret tt, st')
  | Some e => (Raise e, st')
  end.

(** ** The program *)

Definition START_BEEP_PATH : string :=
  "c:\Users\TS PDA\Documents\Projects\Python\Voice Assistant\sounds1\point-smooth-beep-230573.wav".

Definition STOP_BEEP_PATH : string :=
  "c:\Users\TS PDA\Documents\Projects\Python\Voice Assistant\sounds1\beep-6-96243.wav".

Definition play_beep (E : env) (start : bool) : M unit :=
  let beep_file := if start then START_BEEP_PATH else STOP_BEEP_PATH in
  if path_exists E beep_file then
    try_except (playsound_call E beep_file)
      (fun e => emit (EPrintExn ("Error while playing " ++ beep_file ++ ": ") e))
  else ret tt.

Definition speak (E : env) (text : string) : M unit :=
  print ("[SPEAK] Attempting to speak: " ++ slice_to 50 text ++ "...") ;;
  with_lock
    (try_except
       (if USE_WIN32 E then
          device E (SapiSpeak text) ;;
          print "[SPEAK] Speech completed (WIN32)"
        else
          device E EngineInit ;;
          device E (SetProperty "rate" "160") ;;
          device E (SetProperty "volume" "1.0") ;;
          match VOICE_ID E with
          | Some (String c id) => device E (SetProperty "voice" (String c id))
          | _ => ret tt
          end ;;
          device E (Say text) ;;
          device E RunAndWait ;;
          device E Stop ;;
          print "[SPEAK] Speech completed (pyttsx3)")
       (fun e =>
          emit (EPrintExn "[SPEAK ERROR] " e) ;;
          emit (ETraceback e))).

(** The guarded block of [listen]: the body of its [try]. *)
Definition capture_block (E : env) : M string :=
  audio_call E (Listen 8 12) ;;
  play_beep E false ;;
  print "Processing..." ;;
  query <- transcribe E ;;
  print ("You said: " ++ query) ;;
  ret query.

(** The [except] clauses of [listen], tried in order. *)
Definition on_failure (E : env) (e : exn) : M string :=
  match e with
  | UnknownValueError =>
      play_beep E false ;;
      print "Sorry, I didn't catch that. Could you repeat?" ;;
      speak E "Sorry, I didn't catch that. Could you repeat?" ;;
      ret ""
  | RequestError =>
      play_beep E false ;;
      print "There seems to be an internet issue. Please check your connection." ;;
      speak E "There seems to be an internet issue. Please check your connection." ;;
      ret ""
  | _ =>
      play_beep E false ;;
      emit (EPrintExn "Error: " e) ;;
      speak E "Something went wrong. Could you try again?" ;;
      ret ""
  end.

(** What [listen] does before its [try]: the microphone is opened and
    calibrated, and the start cue is played.  (Closing the microphone on
    the way out of [with sr.Microphone()] is left out.) *)
Definition open_and_cue (E : env) : M unit :=
  audio_call E OpenMicrophone ;;
  audio_call E AdjustForAmbientNoise ;;
  print "Listening..." ;;
  play_beep E true.

Definition listen (E : env) : M string :=
  open_and_cue E ;;
  try_except (capture_block E) (on_failure E).

(** [generator(prompt, max_length=100, num_return_sequences=1)], then
    [response[0]["generated_text"]]. *)
Definition generate_call (g : list event -> string -> exn + string)
    (prompt : string) : M string := fun st =>
  let st' := record (EGenerate prompt 100 1) st in
  match g (trace st) prompt with
  | inr text => (Ret text, st')
  | inl e => (Raise e, st')
  end.

Definition generate_ai_response (E : env) (prompt : string) : M string :=
  match generator E with
  | Some g =>
      try_except
        (text <- generate_call g prompt ;;
         ret (strip text))
        (fun e =>
           emit (EPrintExn "Error generating AI response: " e) ;;
           ret "I couldn't think of a response. Let me try again later.")
  | None => ret "AI generation isn't available at the moment."
  end.

(** [requests.get(url)] and [response.json()] *)
Definition http_json (E : env) (url : string) : M json := fun st =>
  let st' := record (EHttpGet url) st in
  match requests_get E (trace st) url with
  | Decoded data => (Ret data, st')
  | HttpRaises e => (Raise e, st')
  | JsonRaises e => (Raise e, st')
  end.

Fixpoint assoc (key : string) (fields : list (string * json)) : option json :=
  match fields with
  | [] => None
  | (k, v) :: rest => if String.eqb k key then Some v else assoc key rest
  end.

(** [v[key]] for a string key *)
Definition getitem (v : json) (key : string) : M json :=
  match v with
  | JObj fields =>
      match assoc key fields with
      | Some x => ret x
      | None => raise KeyError
      end
  | _ => raise TypeError
  end.

(** [v[i]] for an index [i >= 0]; a decoded object has string keys only. *)
Definition getindex (v : json) (i : nat) : M json :=
  match v with
  | JArr items =>
      match nth_error items i with
      | Some x => ret x
      | None => raise IndexError
      end
  | JStr s =>
      match String.get i s with
      | Some c => ret (JStr (String c EmptyString))
      | None => raise IndexError
      end
  | JObj _ => raise KeyError
  | _ => raise TypeError
  end.

Definition float_eq_int (f : pyfloat) (n : Z) : bool :=
  match f with
  | FDec neg m e =>
      let m := (if neg then - Z.of_N m else Z.of_N m)%Z in
      if (0 <=? e)%Z then (m * 10 ^ e =? n)%Z else (m =? n * 10 ^ (- e))%Z
  | _ => false
  end.

(** [v == n] for an [int] literal [n] *)
Definition eq_int (v : json) (n : Z) : bool :=
  match v with
  | JInt z => (z =? n)%Z
  | JFloat f => float_eq_int f n
  | JBool b => ((if b then 1 else 0) =? n)%Z
  | _ => false
  end.

Definition weather_url (city api_key : string) : string :=
  "http://api.openweathermap.org/data/2.5/weather?q=" ++ city ++
  "&appid=" ++ api_key ++ "&units=metric".

Definition get_weather (E : env) (city api_key : string) : M string :=
  let url := weather_url city api_key in
  try_except
    (data <- http_json E url ;;
     cod <- getitem data "cod" ;;
     if negb (eq_int cod 200) then
       message <- getitem data "message" ;;
       ret ("Error: " ++ str message)
     else
       weathers <- getitem data "weather" ;;
       first <- getindex weathers 0 ;;
       weather <- getitem first "description" ;;
       main <- getitem data "main" ;;
       temp <- getitem main "temp" ;;
       main' <- getitem data "main" ;;
       feels_like <- getitem main' "feels_like" ;;
       ret (capitalize city ++ " weather: " ++ str weather ++ ", " ++
            str temp ++ "°C, feels like " ++ str feels_like ++ "°C."))
    (fun e =>
       emit (EPrintExn "Error fetching weather data: " e) ;;
       ret "I couldn't fetch the weather details. Please try later.").

Definition summary_call (E : env) (query : string) (sentences : nat) : M string :=
  fun st =>
    let st' := record (EWikiSummary query sentences) st in
    match wikipedia_summary E (trace st) query sentences with
    | inr summary => (Ret summary, st')
    | inl e => (Raise e, st')
    end.

Definition get_wikipedia_summary (E : env) (query : string) : M string :=
  try_except
    (emit (EWikiSetLang "en") ;;
     summary <- summary_call E query 7 ;;
     ret summary)
    (fun e =>
       match e with
       | DisambiguationError all =>
           let options := firstn 3 all in
           ret ("Your query is too broad. Did you mean: " ++ join ", " options ++ "?")
       | PageError =>
           ret "I couldn't find any information on that topic. Please try rephrasing."
       | _ =>
           emit (EPrintExn "Error accessing Wikipedia: " e) ;;
           ret "I encountered an issue accessing Wikipedia. Please try again later."
       end).

(** How one pass through the body of [while True] ends. *)
Inductive control : Type :=
| Continue
| Break.

Definition weather_branch (E : env) (api_key : string) : M unit :=
  print "Which city should I check?" ;;
  speak E "Which city should I check?" ;;
  city <- listen E ;;
  if negb (is_empty city) then
    weather_info <- get_weather E city api_key ;;
    print weather_info ;;
    speak E weather_info
  else
    print "I couldn't understand the city name. Please try again." ;;
    speak E "I couldn't understand the city name. Please try again.".

Definition extract_topic (user_query : string) : string :=
  strip (replace "tell me about" "" (replace "Wikipedia" "" user_query)).

Definition wikipedia_branch (E : env) (user_query : string) : M unit :=
  let topic := extract_topic user_query in
  if negb (is_empty topic) then
    print ("Searching Wikipedia for " ++ topic ++ "...") ;;
    speak E ("Searching Wikipedia for " ++ topic ++ "...") ;;
    summary <- get_wikipedia_summary E topic ;;
    print summary ;;
    speak E summary
  else
    print "Please specify a topic for me to search." ;;
    speak E "Please specify a topic for me to search.".

Definition chat_branch (E : env) (user_query : string) : M unit :=
  print "Thinking..." ;;
  speak E "Thinking..." ;;
  response <- generate_ai_response E user_query ;;
  print response ;;
  speak E response.

(** The body of the loop of [ai_talking_friend]. *)
Definition turn (E : env) (api_key : string) : M control :=
  user_query <- listen E ;;
  if is_empty user_query then ret Continue
  else if contains "bye" (lower user_query) then
    print "Goodbye! Talk to you soon!" ;;
    speak E "Goodbye! Talk to you soon!" ;;
    ret Break
  else
    (if contains "weather" (lower user_query) then
       weather_branch E api_key
     else if contains "Wikipedia" (lower user_query)
             || contains "tell me about" (lower user_query) then
       wikipedia_branch E user_query
     else
       chat_branch E user_query) ;;
    let additional_help_message := "Do you need help with anything else?" in
    print additional_help_message ;;
    speak E additional_help_message ;;
    ret Continue.

(** [while True: body]; [None] when the loop is still running after [fuel]
    passes. *)
Fixpoint turn_loop (E : env) (api_key : string) (fuel : nat) (st : state)
  : option (res unit * state) :=
  match fuel with
  | O => None
  | S n =>
      match turn E api_key st with
      | (Ret Continue, st') => turn_loop E api_key n st'
      | (Ret Break, st') => Some (Ret tt, st')
      | (Raise e, st') => Some (Raise e, st')
      | (Deadlock, st') => Some (Deadlock, st')
      end
  end.

Definition greeting : string :=
  "Hi, I'm Miehab, your personal voice assistant. How can I help you today?".

Definition ai_talking_friend (E : env) (api_key : string) (fuel : nat)
    (st : state) : option (res unit * state) :=
  match (print greeting ;; speak E greeting) st with
  | (Ret _, st') => turn_loop E api_key fuel st'
  | (Raise e, st') => Some (Raise e, st')
  | (Deadlock, st') => Some (Deadlock, st')
  end.

Definition API_KEY : string := "0e66cfb4c038c19707aadd74d4c14ac7".

Definition initial : state := {| engine_lock := false; trace := [] |}.

(** ** Intents and observations *)

Inductive intent : Type :=
| Farewell
| WeatherQuery
| EncyclopediaQuery
| OpenChat.

(** The branch that [turn] takes on a non-empty utterance: the conditions of
    its [if]/[elif] chain, in their order. *)
Definition classify (user_query : string) : intent :=
  if contains "bye" (lower user_query) then Farewell
  else if contains "weather" (lower user_query) then WeatherQuery
  else if contains "Wikipedia" (lower user_query)
          || contains "tell me about" (lower user_query) then EncyclopediaQuery
  else OpenChat.

(** The intent as the specification words it: the trigger words are looked
    for in the utterance whatever its casing. *)
Definition spec_intent (utterance : string) : intent :=
  if contains "bye" (lower utterance) then Farewell
  else if contains "weather" (lower utterance) then WeatherQuery
  else if contains "wikipedia" (lower utterance)
          || contains "tell me about" (lower utterance) then EncyclopediaQuery
  else OpenChat.

(** The topic as the specification words it: the trigger phrases
    "wikipedia" and "tell me about" removed as they are written, and the
    result trimmed. *)
Definition spec_topic (utterance : string) : string :=
  strip (replace "tell me about" "" (replace "wikipedia" "" utterance)).

Inductive failure_kind : Type :=
| NoSpeechDetected
| ServiceUnavailable
| Unexpected.

(** The [except] clause of [listen] that an exception reaches. *)
Definition failure_class (e : exn) : failure_kind :=
  match e with
  | UnknownValueError => NoSpeechDetected
  | RequestError => ServiceUnavailable
  | _ => Unexpected
  end.


Definition apology (k : failure_kind) : string :=
  match k with
  | NoSpeechDetected => "Sorry, I didn't catch that. Could you repeat?"
  | ServiceUnavailable =>
      "There seems to be an internet issue. Please check your connection."
  | Unexpected => "Something went wrong. Could you try again?"
  end.

(** Calls of a lookup provider. *)
Definition is_lookup (ev : event) : bool :=
  match ev with
  | EHttpGet _ | EWikiSummary _ _ | EGenerate _ _ _ => true
  | _ => false
  end.

(** Calls of the recognizer's audio capture. *)
Definition is_capture (ev : event) : bool :=
  match ev with
  | EAudio (Listen _ _) => true
  | _ => false
  end.

Definition lookups (tr : list event) : list event := filter is_lookup tr.

Definition captures (tr : list event) : nat := List.length (filter is_capture tr).

(** The texts handed to the speech-output device. *)
Fixpoint said (tr : list event) : list string :=
  match tr with
  | [] => []
  | EDevice (SapiSpeak text) _ :: rest => text :: said rest
  | EDevice (Say text) _ :: rest => text :: said rest
  | _ :: rest => said rest
  end.

(** An event that neither looks anything up nor captures audio. *)
Definition quiet (ev : event) : Prop :=
  is_lookup ev = false /\ is_capture ev = false.

(** An event allowed while the speech lock is held: output on the console,
    or a call of the device made under the lock. *)
Definition under_lock (ev : event) : Prop :=
  match ev with
  | EPrint _ | EPrintExn _ _ | ETraceback _ => True
  | EDevice _ guarded => guarded = true
  | _ => False
  end.

(** [m], started with the lock in position [lock], ends without deadlock,
    leaves the lock as it was, and adds only events satisfying [ok]. *)
Definition runs {A} (lock : bool) (ok : event -> Prop) (m : M A) : Prop :=
  forall st, engine_lock st = lock ->
    exists r evs,
      m st = (r, {| engine_lock := lock; trace := trace st ++ evs |})
      /\ r <> Deadlock /\ Forall ok evs.

(** As [runs], and [m] returns normally. *)
Definition returns {A} (lock : bool) (ok : event -> Prop) (m : M A) : Prop :=
  forall st, engine_lock st = lock ->
    exists a evs,
      m st = (Ret a, {| engine_lock := lock; trace := trace st ++ evs |})
      /\ Forall ok evs.

(** A computation that leaves the state alone. *)
Definition pure {A} (m : M A) : Prop :=
  forall st, exists r, m st = (r, st) /\ r <> Deadlock.

(** ** Sample environments *)

(** A transcription provider that answers the [n]-th call with the [n]-th
    entry of a script. *)
Definition scripted (script : list (exn + string)) (history : list event)
  : exn + string :=
  nth (List.length (filter (fun ev => match ev with ETranscribe => true | _ => false end)
                 history))
      script (inl UnknownValueError).

(** Everything works: SAPI voice, no cue files, a generator that echoes. *)
Definition demo_env (script : list (exn + string)) (http : http_result)
    (wiki : exn + string) : env :=
  {| USE_WIN32 := true;
     VOICE_ID := None;
     generator := Some (fun _ prompt => inr ("  You asked: " ++ prompt ++ " "));
     tts := fun _ _ => None;
     path_exists := fun _ => false;
     playsound := fun _ _ => None;
     audio := fun _ _ => None;
     recognize_google := scripted script;
     requests_get := fun _ _ => http;
     wikipedia_summary := fun _ _ _ => wiki |}.

(** The pyttsx3 fallback with a voice, whose engine fails when asked to run. *)
Definition failing_tts_env : env :=
  {| USE_WIN32 := false;
     VOICE_ID := Some "HKEY_LOCAL_MACHINE\SOFTWARE\Microsoft\Speech\Voices\Tokens\TTS_MS_EN-US_DAVID_11.0";
     generator := None;
     tts := fun _ op => match op with
                        | RunAndWait => Some (OtherException "RuntimeError")
                        | _ => None
                        end;
     path_exists := fun _ => true;
     playsound := fun _ _ => Some (OtherException "PlaysoundException");
     audio := fun _ _ => None;
     recognize_google := fun _ => inl RequestError;
     requests_get := fun _ _ => HttpRaises (OtherException "ConnectionError");
     wikipedia_summary := fun _ _ _ => inl PageError |}.

(** Nobody speaks: the capture gives up after its timeout. *)
Definition silent_env : env :=
  {| USE_WIN32 := true;
     VOICE_ID := None;
     generator := None;
     tts := fun _ _ => None;
     path_exists := fun _ => false;
     playsound := fun _ _ => None;
     audio := fun _ op => match op with
                          | Listen _ _ => Some WaitTimeoutError
                          | _ => None
                          end;
     recognize_google := fun _ => inl UnknownValueError;
     requests_get := fun _ _ => HttpRaises (OtherException "ConnectionError");
     wikipedia_summary := fun _ _ _ => inl PageError |}.

Definition paris_response : json :=
  JObj [("cod", JInt 200);
        ("weather", JArr [JObj [("description", JStr "clear sky")]]);
        ("main", JObj [("temp", JFloat (FDec false 210 (-1)));
                       ("feels_like", JFloat (FDec false 205 (-1)))])].

Definition not_found_response : json :=
  JObj [("cod", JStr "404"); ("message", JStr "city not found")].

(** The user says goodbye while mentioning every other trigger. *)
Definition farewell_demo : env :=
  demo_env [inr "Goodbye, and check the WEATHER on wikipedia"]
    (HttpRaises TypeError) (inl PageError).

(** The user asks for the weather and answers the city prompt with "goodbye". *)
Definition weather_demo : env :=
  demo_env [inr "What's the WEATHER like"; inr "goodbye"]
    (Decoded paris_response) (inl PageError).

(** The user asks for the weather and mumbles at the city prompt. *)
Definition mumble_demo : env :=
  demo_env [inr "What's the WEATHER like"; inl UnknownValueError]
    (Decoded paris_response) (inl PageError).



(** Questions for the encyclopedia. *)
Definition topic_demo (utterance : string) : env :=
  demo_env [inr utterance] (HttpRaises TypeError) (inr "An article.").

(** ** Further observations *)

(** Plays of the end-of-listening cue. *)
Definition is_stop_cue (ev : event) : bool :=
  match ev with
  | EPlaysound file => String.eqb file STOP_BEEP_PATH
  | _ => false
  end.

Definition stop_cues (tr : list event) : nat := List.length (filter is_stop_cue tr).

(** Calls of the speech-output device, in order. *)
Fixpoint device_calls (tr : list event) : list device_op :=
  match tr with
  | [] => []
  | EDevice op _ :: rest => op :: device_calls rest
  | _ :: rest => device_calls rest
  end.


(** [m], started with the lock free, ends without deadlock and with the lock
    free, after at most [max_lookups] lookups and [max_captures] audio
    captures. *)
Definition within {A} (max_lookups max_captures : nat) (m : M A) : Prop :=
  forall st, engine_lock st = false ->
    exists r evs,
      m st = (r, {| engine_lock := false; trace := trace st ++ evs |})
      /\ r <> Deadlock
      /\ List.length (lookups evs) <= max_lookups
      /\ captures evs <= max_captures.

Definition first_is_space (s : string) : bool :=
  match s with
  | EmptyString => false
  | String c _ => is_space c
  end.

Fixpoint last_is_space (s : string) : bool :=
  match s with
  | EmptyString => false
  | String c EmptyString => is_space c
  | String _ s' => last_is_space s'
  end.


(** A text with no whitespace at either end. *)
Definition trimmed (s : string) : Prop :=
  first_is_space s = false /\ last_is_space s = false.

(** The pyttsx3 fallback on a machine with no speech engine. *)
Definition no_engine_env : env :=
  {| USE_WIN32 := false;
     VOICE_ID := None;
     generator := None;
     tts := fun _ _ => Some (OtherException "RuntimeError");
     path_exists := fun _ => true;
     playsound := fun _ _ => None;
     audio := fun _ _ => None;
     recognize_google := fun _ => inr "hello";
     requests_get := fun _ _ => HttpRaises (OtherException "ConnectionError");
     wikipedia_summary := fun _ _ _ => inl PageError |}.

(** A successful status with nothing to report. *)
Definition empty_report_response : json :=
  JObj [("cod", JInt 200); ("weather", JArr [])].

(** The user opens with a capital, as a transcript does. *)
Definition capital_demo : env :=
  demo_env [inr "Tell me about black holes"] (HttpRaises TypeError)
    (inr "An article.").

(** Small talk, then a mumble. *)
Definition chat_demo : env :=
  demo_env [inr "how are you today"; inl UnknownValueError]
    (HttpRaises TypeError) (inl PageError).

(** The weather service answers with a status given as a text. *)
Definition text_status_response : json :=
  JObj [("cod", JStr "200");
        ("weather", JArr [JObj [("description", JStr "clear sky")]]);
        ("main", JObj [("temp", JInt 21); ("feels_like", JInt 20)])].

(** ** Reasoning about runs *)

Section Runs.

Context {A B : Type}.
Variables (lock : bool) (ok : event -> Prop).

Lemma returns_ret (a : A) : returns lock ok (ret a).
Proof.
  intros st Hl. exists a, []. rewrite app_nil_r. split; [|constructor].
  unfold ret. destruct st; simpl in *; subst; reflexivity.
Qed.

Lemma runs_raise (e : exn) : runs lock ok (@raise A e).
Proof.
  intros st Hl. exists (Raise e), []. rewrite app_nil_r.
  repeat split; [|discriminate|constructor].
  unfold raise. destruct st; simpl in *; subst; reflexivity.
Qed.

Lemma returns_runs (m : M A) : returns lock ok m -> runs lock ok m.
Proof.
  intros H st Hl. destruct (H st Hl) as (a & evs & Hm & Hok).
  exists (Ret a), evs. repeat split; [assumption|discriminate|assumption].
Qed.

Lemma returns_bind (m : M A) (k : A -> M B) :
  returns lock ok m -> (forall a, returns lock ok (k a)) ->
  returns lock ok (bind m k).
Proof.
  intros Hm Hk st Hl. destruct (Hm st Hl) as (a & evs & Em & Hok).
  destruct (Hk a {| engine_lock := lock; trace := trace st ++ evs |} eq_refl) as (b & evs' & Ek & Hok').
  simpl in Ek.
  exists b, (evs ++ evs')%list. unfold bind. rewrite Em, Ek. simpl.
  rewrite app_assoc. split; [reflexivity|]. apply Forall_app; split; assumption.
Qed.

Lemma runs_bind (m : M A) (k : A -> M B) :
  runs lock ok m -> (forall a, runs lock ok (k a)) ->
  runs lock ok (bind m k).
Proof.
  intros Hm Hk st Hl. destruct (Hm st Hl) as (r & evs & Em & Hr & Hok).
  unfold bind. rewrite Em. destruct r as [a|e|].
  - destruct (Hk a {| engine_lock := lock; trace := trace st ++ evs |} eq_refl)
      as (r' & evs' & Ek & Hr' & Hok'). simpl in Ek.
    exists r', (evs ++ evs')%list. rewrite Ek. simpl. rewrite app_assoc.
    repeat split; [assumption|]. apply Forall_app; split; assumption.
  - exists (Raise e), evs. repeat split; [discriminate|assumption].
  - contradiction.
Qed.

Lemma runs_try (body : M A) (handler : exn -> M A) :
  runs lock ok body -> (forall e, runs lock ok (handler e)) ->
  runs lock ok (try_except body handler).
Proof.
  intros Hb Hh st Hl. destruct (Hb st Hl) as (r & evs & Eb & Hr & Hok).
  unfold try_except. rewrite Eb. destruct r as [a|e|].
  - exists (Ret a), evs. repeat split; [discriminate|assumption].
  - destruct (Hh e {| engine_lock := lock; trace := trace st ++ evs |} eq_refl)
      as (r' & evs' & Eh & Hr' & Hok'). simpl in Eh.
    exists r', (evs ++ evs')%list. rewrite Eh. simpl. rewrite app_assoc.
    repeat split; [assumption|]. apply Forall_app; split; assumption.
  - contradiction.
Qed.

Lemma returns_try (body : M A) (handler : exn -> M A) :
  runs lock ok body -> (forall e, returns lock ok (handler e)) ->
  returns lock ok (try_except body handler).
Proof.
  intros Hb Hh st Hl. destruct (Hb st Hl) as (r & evs & Eb & Hr & Hok).
  unfold try_except. rewrite Eb. destruct r as [a|e|].
  - exists a, evs. split; [reflexivity|assumption].
  - destruct (Hh e {| engine_lock := lock; trace := trace st ++ evs |} eq_refl)
      as (a & evs' & Eh & Hok'). simpl in Eh.
    exists a, (evs ++ evs')%list. rewrite Eh. simpl. rewrite app_assoc.
    split; [reflexivity|]. apply Forall_app; split; assumption.
  - contradiction.
Qed.

End Runs.

Lemma returns_emit (lock : bool) (ok : event -> Prop) (ev : event) :
  ok ev -> returns lock ok (emit ev).
Proof.
  intros H st Hl. exists tt, [ev]. split; [|repeat constructor; assumption].
  unfold emit, record. rewrite Hl. reflexivity.
Qed.


Lemma runs_weaken {A} (lock : bool) (ok ok' : event -> Prop) (m : M A) :
  (forall ev, ok ev -> ok' ev) -> runs lock ok m -> runs lock ok' m.
Proof.
  intros Himp H st Hl. destruct (H st Hl) as (r & evs & Em & Hr & Hok).
  exists r, evs. repeat split; [assumption..|]. eapply Forall_impl; eassumption.
Qed.

(** ** Respond: [speak] *)

Lemma device_under_lock (E : env) (op : device_op) :
  runs true under_lock (device E op).
Proof.
  intros st Hl. unfold device, record. rewrite Hl.
  destruct (tts E (trace st) op) as [e|].
  - exists (Raise e), [EDevice op true].
    repeat split; [discriminate|repeat constructor].
  - exists (Ret tt), [EDevice op true].
    repeat split; [discriminate|repeat constructor].
Qed.

Lemma print_under_lock (lock : bool) (line : string) :
  returns lock under_lock (print line).
Proof. apply returns_emit. exact I. Qed.

Create HintDb speech.

#[local] Hint Resolve device_under_lock print_under_lock : speech.
#[local] Hint Resolve returns_runs runs_bind returns_bind returns_ret : speech.

(** The guarded part of [speak] returns whatever the provider does, and
    touches the device only under the lock. *)
Lemma speak_body_returns (E : env) (text : string) (body : M unit) :
  body = (if USE_WIN32 E then
            device E (SapiSpeak text) ;;
            print "[SPEAK] Speech completed (WIN32)"
          else
            device E EngineInit ;;
            device E (SetProperty "rate" "160") ;;
            device E (SetProperty "volume" "1.0") ;;
            match VOICE_ID E with
            | Some (String c id) => device E (SetProperty "voice" (String c id))
            | _ => ret tt
            end ;;
            device E (Say text) ;;
            device E RunAndWait ;;
            device E Stop ;;
            print "[SPEAK] Speech completed (pyttsx3)") ->
  returns true under_lock
    (try_except body
       (fun e => emit (EPrintExn "[SPEAK ERROR] " e) ;; emit (ETraceback e))).
Proof.
  intros ->. apply returns_try.
  - destruct (USE_WIN32 E).
    + auto with speech.
    + repeat (apply runs_bind; [auto with speech|intros _]).
      * destruct (VOICE_ID E) as [[|c id]|]; auto with speech.
      * auto with speech.
  - intros e. apply returns_bind; [|intros _]; apply returns_emit; exact I.
Qed.

Lemma speak_run (E : env) (text : string) (st : state) :
  engine_lock st = false ->
  exists body,
    speak E text st =
      (Ret tt,
       {| engine_lock := false;
          trace := trace st ++
                   EPrint ("[SPEAK] Attempting to speak: " ++ slice_to 50 text ++ "...")
                   :: EAcquire :: body ++ [ERelease] |})
    /\ Forall under_lock body.
Proof.
  intros Hl. unfold speak.
  match goal with
  | |- context [try_except ?b ?h] =>
      pose proof (speak_body_returns E text b eq_refl) as Hbody;
      set (guarded := try_except b h) in *
  end.
  unfold bind at 1. unfold print, emit. unfold with_lock, acquire. simpl.
  rewrite Hl.
  match goal with
  | |- context [guarded ?s] => destruct (Hbody s eq_refl) as ([] & body & Eb & Hok)
  end.
  exists body. rewrite Eb. unfold release, record. simpl.
  split; [|assumption].
  repeat rewrite <- app_assoc. reflexivity.
Qed.

Lemma under_lock_quiet (ev : event) : under_lock ev -> quiet ev.
Proof. destruct ev; simpl; intros H; try contradiction; split; reflexivity. Qed.

Lemma speak_quiet (E : env) (text : string) : returns false quiet (speak E text).
Proof.
  intros st Hl. destruct (speak_run E text st Hl) as (body & Es & Hok).
  exists tt. eexists. split; [exact Es|].
  constructor; [split; reflexivity|]. constructor; [split; reflexivity|].
  apply Forall_app. split.
  - eapply Forall_impl; [apply under_lock_quiet|assumption].
  - repeat constructor.
Qed.

(** ** Capture: [listen] *)

Lemma bind_ret_eq {A B} (m : M A) (k : A -> M B) (st st' : state) (a : A) :
  m st = (Ret a, st') -> bind m k st = k a st'.
Proof. intros H. unfold bind. rewrite H. reflexivity. Qed.

Lemma bind_raise_eq {A B} (m : M A) (k : A -> M B) (st st' : state) (e : exn) :
  m st = (Raise e, st') -> bind m k st = (Raise e, st').
Proof. intros H. unfold bind. rewrite H. reflexivity. Qed.

Lemma playsound_quiet (E : env) (lock : bool) (file : string) :
  runs lock quiet (playsound_call E file).
Proof.
  intros st Hl. unfold playsound_call, record. rewrite Hl.
  destruct (playsound E (trace st) file) as [e|];
    [exists (Raise e)|exists (Ret tt)]; exists [EPlaysound file];
    repeat split; try discriminate; repeat constructor.
Qed.

Lemma play_beep_quiet (E : env) (lock start : bool) :
  returns lock quiet (play_beep E start).
Proof.
  unfold play_beep. destruct (path_exists E _).
  - apply returns_try; [apply playsound_quiet|].
    intros e. apply returns_emit. split; reflexivity.
  - apply returns_ret.
Qed.

Lemma audio_call_quiet (E : env) (lock : bool) (op : audio_op) :
  is_capture (EAudio op) = false -> runs lock quiet (audio_call E op).
Proof.
  intros Hop st Hl. unfold audio_call, record. rewrite Hl.
  destruct (audio E (trace st) op) as [e|];
    [exists (Raise e)|exists (Ret tt)]; exists [EAudio op];
    repeat split; try discriminate; repeat constructor; assumption.
Qed.

Lemma transcribe_quiet (E : env) (lock : bool) : runs lock quiet (transcribe E).
Proof.
  intros st Hl. unfold transcribe, record. rewrite Hl.
  destruct (recognize_google E (trace st)) as [e|q];
    [exists (Raise e)|exists (Ret q)]; exists [ETranscribe];
    repeat split; try discriminate; repeat constructor.
Qed.

Lemma print_quiet (lock : bool) (line : string) : returns lock quiet (print line).
Proof. apply returns_emit. split; reflexivity. Qed.

Create HintDb quietdb.

#[local] Hint Resolve speak_quiet play_beep_quiet transcribe_quiet print_quiet
  returns_runs runs_bind returns_bind returns_ret : quietdb.

Lemma open_and_cue_quiet (E : env) (lock : bool) : runs lock quiet (open_and_cue E).
Proof.
  unfold open_and_cue.
  repeat (apply runs_bind; [try (apply audio_call_quiet; reflexivity);
                            auto with quietdb|intros _]).
  auto with quietdb.
Qed.

(** Whatever reaches the handlers of [listen], the apology of its class is
    spoken and the empty string returned. *)
Lemma on_failure_run (E : env) (e : exn) (st : state) :
  engine_lock st = false ->
  exists st2 st3,
    on_failure E e st = (Ret "", st3)
    /\ speak E (apology (failure_class e)) st2 = (Ret tt, st3)
    /\ engine_lock st2 = false /\ engine_lock st3 = false
    /\ exists evs, (trace st2 = trace st ++ evs)%list /\ Forall quiet evs.
Proof.
  intros Hl.
  destruct (play_beep_quiet E false false st Hl) as ([] & evs & Eb & Hq).
  set (st1 := {| engine_lock := false; trace := trace st ++ evs |}) in *.
  assert (Hgen : forall ev text, quiet ev ->
    exists st2 st3,
      (play_beep E false ;; emit ev ;; speak E text ;; ret "") st = (Ret "", st3)
      /\ speak E text st2 = (Ret tt, st3)
      /\ engine_lock st2 = false /\ engine_lock st3 = false
      /\ exists evs', (trace st2 = trace st ++ evs')%list /\ Forall quiet evs').
  { intros ev text Hev.
    destruct (speak_quiet E text (record ev st1) eq_refl) as ([] & evs2 & Es & Hq2).
    exists (record ev st1). eexists. split; [|split; [|split; [|split]]].
    - erewrite bind_ret_eq by exact Eb.
      erewrite bind_ret_eq by reflexivity.
      erewrite bind_ret_eq by exact Es. reflexivity.
    - exact Es.
    - reflexivity.
    - reflexivity.
    - exists (evs ++ [ev])%list. simpl. rewrite app_assoc. split; [reflexivity|].
      apply Forall_app. split; [assumption|]. constructor; [assumption|constructor]. }
  destruct e; simpl; apply Hgen; split; reflexivity.
Qed.

Lemma on_failure_quiet (E : env) (e : exn) : returns false quiet (on_failure E e).
Proof.
  intros st Hl.
  destruct (on_failure_run E e st Hl) as (st2 & st3 & Ef & Es & Hl2 & Hl3 & evs & Et & Hq).
  destruct (speak_quiet E (apology (failure_class e)) st2 Hl2) as ([] & evs2 & Es' & Hq2).
  rewrite Es in Es'. injection Es' as ->.
  exists "", (evs ++ evs2)%list. rewrite Ef, Et, app_assoc.
  split; [reflexivity|]. apply Forall_app. split; assumption.
Qed.

Lemma capture_block_run (E : env) (st : state) :
  engine_lock st = false ->
  exists r post,
    capture_block E st =
      (r, {| engine_lock := false;
             trace := trace st ++ EAudio (Listen 8 12) :: post |})
    /\ r <> Deadlock /\ Forall quiet post.
Proof.
  intros Hl. unfold capture_block. unfold bind at 1. unfold audio_call, record.
  rewrite Hl. destruct (audio E (trace st) (Listen 8 12)) as [e|].
  - exists (Raise e), []. repeat split; [discriminate|constructor].
  - match goal with
    | |- context [bind ?m ?k ?s] =>
        assert (Hrest : runs false quiet (bind m k))
    end.
    { repeat (apply runs_bind; [auto with quietdb|intros ?]). auto with quietdb. }
    destruct (Hrest {| engine_lock := false;
                       trace := trace st ++ [EAudio (Listen 8 12)] |} eq_refl)
      as (r & post & Er & Hr & Hq). cbn [trace] in Er.
    exists r, post. rewrite Er. rewrite <- app_assoc. simpl.
    repeat split; assumption.
Qed.

(** [listen] either fails while opening the microphone, before its [try],
    or returns after exactly one audio capture. *)
Lemma listen_run (E : env) (st : state) :
  engine_lock st = false ->
  (exists e evs,
      listen E st = (Raise e, {| engine_lock := false; trace := trace st ++ evs |})
      /\ open_and_cue E st
         = (Raise e, {| engine_lock := false; trace := trace st ++ evs |})
      /\ Forall quiet evs)
  \/ (exists q pre post,
      listen E st =
        (Ret q, {| engine_lock := false;
                   trace := trace st ++ pre ++ EAudio (Listen 8 12) :: post |})
      /\ Forall quiet pre /\ Forall quiet post).
Proof.
  intros Hl. unfold listen.
  destruct (open_and_cue_quiet E false st Hl) as (r & pre & Eo & Hr & Hpre).
  destruct r as [[]|e|]; [|left|contradiction].
  - right. erewrite bind_ret_eq by exact Eo.
    destruct (capture_block_run E {| engine_lock := false; trace := trace st ++ pre |} eq_refl)
      as (r & post & Ec & Hr' & Hpost). cbn [trace] in Ec.
    unfold try_except. rewrite Ec. destruct r as [q|e|]; [|  |contradiction].
    + exists q, pre, post. rewrite <- app_assoc. repeat split; assumption.
    + destruct (on_failure_quiet E e
                  {| engine_lock := false;
                     trace := (trace st ++ pre) ++ EAudio (Listen 8 12) :: post |}
                  eq_refl) as (q & evs & Ef & Hq).
      cbn [trace] in Ef. exists q, pre, (post ++ evs)%list. rewrite Ef.
      split; [|split; [assumption|apply Forall_app; split; assumption]].
      f_equal. f_equal. repeat rewrite <- app_assoc. reflexivity.
  - exists e, pre. erewrite bind_raise_eq by exact Eo.
    repeat split; assumption.
Qed.

(** ** Observations on traces *)

Lemma quiet_lookups (evs : list event) : Forall quiet evs -> lookups evs = [].
Proof.
  induction 1 as [|ev evs [Hl _] _ IH]; [reflexivity|].
  unfold lookups in *. simpl. rewrite Hl. assumption.
Qed.

Lemma quiet_captures (evs : list event) : Forall quiet evs -> captures evs = 0.
Proof.
  induction 1 as [|ev evs [_ Hc] _ IH]; [reflexivity|].
  unfold captures in *. simpl. rewrite Hc. assumption.
Qed.

Lemma lookups_app (tr evs : list event) :
  lookups (tr ++ evs) = (lookups tr ++ lookups evs)%list.
Proof. apply filter_app. Qed.

Lemma captures_app (tr evs : list event) :
  captures (tr ++ evs) = captures tr + captures evs.
Proof. unfold captures. rewrite filter_app, length_app. reflexivity. Qed.

Lemma speak_ret (E : env) (text : string) (st : state) :
  engine_lock st = false ->
  exists st',
    speak E text st = (Ret tt, st')
    /\ engine_lock st' = false
    /\ lookups (trace st') = lookups (trace st)
    /\ captures (trace st') = captures (trace st).
Proof.
  intros Hl. destruct (speak_quiet E text st Hl) as ([] & evs & Es & Hq).
  eexists. split; [exact Es|]. simpl.
  rewrite lookups_app, captures_app.
  rewrite (quiet_lookups evs), (quiet_captures evs) by assumption.
  rewrite app_nil_r, Nat.add_0_r. repeat split.
Qed.

Lemma listen_ret (E : env) (st st' : state) (q : string) :
  engine_lock st = false ->
  listen E st = (Ret q, st') ->
  engine_lock st' = false
  /\ lookups (trace st') = lookups (trace st)
  /\ captures (trace st') = S (captures (trace st)).
Proof.
  intros Hl El.
  destruct (listen_run E st Hl)
    as [(e & evs & El' & _)|(q' & pre & post & El' & Hpre & Hpost)];
    rewrite El in El'; [discriminate|].
  injection El' as -> ->. simpl.
  rewrite !lookups_app, !captures_app.
  change (EAudio (Listen 8 12) :: post) with ([EAudio (Listen 8 12)] ++ post)%list.
  rewrite !lookups_app, !captures_app.
  rewrite (quiet_lookups pre), (quiet_captures pre) by assumption.
  rewrite (quiet_lookups post), (quiet_captures post) by assumption.
  simpl. rewrite app_nil_r. repeat split. unfold captures. simpl. lia.
Qed.

Lemma emit_quiet_ret (ev : event) (st : state) :
  quiet ev ->
  engine_lock (record ev st) = engine_lock st
  /\ lookups (trace (record ev st)) = lookups (trace st)
  /\ captures (trace (record ev st)) = captures (trace st).
Proof.
  intros [Hl Hc]. simpl. rewrite lookups_app, captures_app.
  unfold lookups, captures. simpl. rewrite Hl, Hc. simpl.
  rewrite app_nil_r, Nat.add_0_r. repeat split.
Qed.

(** ** Lookups *)

Lemma pure_ret {A} (a : A) : pure (ret a).
Proof. intros st. exists (Ret a). split; [reflexivity|discriminate]. Qed.

Lemma pure_raise {A} (e : exn) : pure (@raise A e).
Proof. intros st. exists (Raise e). split; [reflexivity|discriminate]. Qed.

Lemma pure_bind {A B} (m : M A) (k : A -> M B) :
  pure m -> (forall a, pure (k a)) -> pure (bind m k).
Proof.
  intros Hm Hk st. destruct (Hm st) as (r & Em & Hr). unfold bind. rewrite Em.
  destruct r as [a|e|]; [apply Hk| |contradiction].
  exists (Raise e). split; [reflexivity|discriminate].
Qed.

Lemma pure_getitem (v : json) (key : string) : pure (getitem v key).
Proof.
  destruct v; simpl; try apply pure_raise.
  destruct (assoc key fields); [apply pure_ret|apply pure_raise].
Qed.

Lemma pure_getindex (v : json) (i : nat) : pure (getindex v i).
Proof.
  destruct v; simpl; try apply pure_raise.
  - destruct (String.get i s); [apply pure_ret|apply pure_raise].
  - destruct (nth_error items i); [apply pure_ret|apply pure_raise].
Qed.

#[local] Hint Resolve pure_ret pure_raise pure_getitem pure_getindex : quietdb.

(** [get_weather] always returns a text, after exactly one request. *)
Lemma get_weather_run (E : env) (city api_key : string) (st : state) :
  exists info evs,
    get_weather E city api_key st =
      (Ret info,
       {| engine_lock := engine_lock st;
          trace := trace st ++ EHttpGet (weather_url city api_key) :: evs |})
    /\ Forall quiet evs.
Proof.
  unfold get_weather. cbv zeta. unfold try_except. unfold bind at 1.
  unfold http_json, record.
  assert (Hfail : forall e : exn, exists info evs,
    (emit (EPrintExn "Error fetching weather data: " e) ;;
     ret "I couldn't fetch the weather details. Please try later.")
      {| engine_lock := engine_lock st;
         trace := trace st ++ [EHttpGet (weather_url city api_key)] |} =
    (Ret info,
     {| engine_lock := engine_lock st;
        trace := trace st ++ EHttpGet (weather_url city api_key) :: evs |})
    /\ Forall quiet evs).
  { intros e. eexists. exists [EPrintExn "Error fetching weather data: " e].
    split; [|repeat constructor].
    unfold bind, emit, ret, record. simpl. rewrite <- app_assoc. reflexivity. }
  destruct (requests_get E (trace st) (weather_url city api_key)) as [e|e|data];
    [apply Hfail..|].
  match goal with
  | |- context [(bind (getitem data "cod") ?k) ?s] =>
      assert (Hp : pure (bind (getitem data "cod") k))
  end.
  { apply pure_bind; [auto with quietdb|intros cod].
    destruct (negb (eq_int cod 200));
      repeat (apply pure_bind; [auto with quietdb|intros ?]); auto with quietdb. }
  match goal with
  | |- context [(bind (getitem data "cod") ?k) ?s] =>
      destruct (Hp s) as (r & Er & Hr); rewrite Er
  end.
  destruct r as [info|e|]; [|apply Hfail|contradiction].
  exists info, []. split; [reflexivity|constructor].
Qed.

(** [get_wikipedia_summary] always returns a text, after exactly one query. *)
Lemma get_wikipedia_summary_run (E : env) (query : string) (st : state) :
  exists summary evs,
    get_wikipedia_summary E query st =
      (Ret summary,
       {| engine_lock := engine_lock st;
          trace := trace st ++ EWikiSetLang "en" :: EWikiSummary query 7 :: evs |})
    /\ Forall quiet evs.
Proof.
  unfold get_wikipedia_summary, try_except, bind, emit, summary_call, record, ret.
  simpl.
  destruct (wikipedia_summary E (trace st ++ [EWikiSetLang "en"]) query 7) as [e|summary].
  - destruct e;
      first
        [ eexists; exists [];
          split; [repeat rewrite <- app_assoc; reflexivity|constructor]
        | eexists; eexists [_];
          split; [cbn [trace engine_lock]; repeat rewrite <- app_assoc; reflexivity
                 |repeat constructor] ].
  - exists summary, []. rewrite <- app_assoc. split; [reflexivity|constructor].
Qed.

(** ** Properties of Respond *)

(** The lock taken by [with engine_lock] is given back when the body raises
    just as when it returns. *)
Lemma with_lock_releases {A} (body : M A) (st st2 : state) (r : res A) :
  engine_lock st = false ->
  body (record EAcquire {| engine_lock := true; trace := trace st |}) = (r, st2) ->
  r <> Deadlock ->
  with_lock body st = (r, release st2) /\ engine_lock (release st2) = false.
Proof.
  intros Hl Hb Hr. unfold with_lock, acquire. rewrite Hl, Hb.
  destruct r; [split; reflexivity..|contradiction].
Qed.

(** C2. [speak] returns normally for every text and every behaviour of the
    synthesis provider, errors included; it takes the speech lock before any
    call of the speech-output device, every such call is made with the lock
    held, and the lock is released when [speak] returns. *)
Theorem speak_guards_device_and_returns (E : env) (text : string) (st : state) :
  engine_lock st = false ->
  exists line body,
    speak E text st =
      (Ret tt,
       {| engine_lock := false;
          trace := trace st ++ EPrint line :: EAcquire :: body ++ [ERelease] |})
    /\ Forall under_lock body.
Proof.
  intros Hl. destruct (speak_run E text st Hl) as (body & Es & Hok).
  eexists. exists body. split; [exact Es|exact Hok].
Qed.

Lemma speak_guards_device_and_returns_witness :
  exists line body,
    speak failing_tts_env "hello" initial =
      (Ret tt,
       {| engine_lock := false;
          trace := trace initial ++ EPrint line :: EAcquire :: body ++ [ERelease] |})
    /\ Forall under_lock body.
Proof.
  apply (speak_guards_device_and_returns failing_tts_env "hello" initial).
  reflexivity.
Defined.

(** Two calls in a row: the second takes the lock, and touches the device,
    only after the first has released it. *)
Lemma speak_twice_serialized (E : env) (a b : string) (st : state) :
  engine_lock st = false ->
  exists line_a body_a line_b body_b,
    (speak E a ;; speak E b) st =
      (Ret tt,
       {| engine_lock := false;
          trace := (trace st ++ EPrint line_a :: EAcquire :: body_a ++ [ERelease])
                   ++ EPrint line_b :: EAcquire :: body_b ++ [ERelease] |})
    /\ Forall under_lock body_a /\ Forall under_lock body_b.
Proof.
  intros Hl. destruct (speak_run E a st Hl) as (body_a & Ea & Ha).
  match type of Ea with _ = (_, ?s) => destruct (speak_run E b s eq_refl) as (body_b & Eb & Hb) end.
  eexists. exists body_a. eexists. exists body_b.
  erewrite bind_ret_eq by exact Ea. split; [|split; assumption].
  rewrite Eb. reflexivity.
Qed.

(** ** Properties of Capture *)







(** ** Properties of the weather lookup *)

Lemma get_weather_decoded (E : env) (city api_key : string) (st : state)
    (data : json) (k : json -> M string) (h : exn -> M string) :
  requests_get E (trace st) (weather_url city api_key) = Decoded data ->
  try_except (data <- http_json E (weather_url city api_key) ;; k data) h st
  = try_except (k data) h (record (EHttpGet (weather_url city api_key)) st).
Proof.
  intros H. unfold try_except, bind, http_json. rewrite H. reflexivity.
Qed.

(** C6. For the response with status 200, "clear sky", 21.0 and 20.5 and the
    city "paris", [get_weather] returns exactly
    "Paris weather: clear sky, 21.0°C, feels like 20.5°C."; and for every
    response whose [cod] is not 200 it returns "Error: " followed by the
    response's [message], printed as Python prints it (a text as it is). *)
Theorem get_weather_formats_response :
  (forall E api_key st,
      requests_get E (trace st) (weather_url "paris" api_key) = Decoded paris_response ->
      get_weather E "paris" api_key st
      = (Ret "Paris weather: clear sky, 21.0°C, feels like 20.5°C.",
         record (EHttpGet (weather_url "paris" api_key)) st))
  /\ (forall E city api_key st fields cod message,
      requests_get E (trace st) (weather_url city api_key) = Decoded (JObj fields) ->
      assoc "cod" fields = Some cod ->
      eq_int cod 200 = false ->
      assoc "message" fields = Some message ->
      get_weather E city api_key st
      = (Ret ("Error: " ++ str message),
         record (EHttpGet (weather_url city api_key)) st))
  /\ (forall text, str (JStr text) = text).
Proof.
  split; [|split].
  - intros E api_key st H. unfold get_weather. cbv zeta.
    rewrite (get_weather_decoded _ _ _ _ _ _ _ H). reflexivity.
  - intros E city api_key st fields cod message H Hcod Hne Hmsg.
    unfold get_weather. cbv zeta.
    rewrite (get_weather_decoded _ _ _ _ _ _ _ H).
    unfold try_except, bind, getitem. rewrite Hcod. unfold ret at 1.
    rewrite Hne. simpl. rewrite Hmsg. reflexivity.
  - reflexivity.
Qed.

Lemma get_weather_formats_response_witness :
  get_weather (demo_env [] (Decoded not_found_response) (inl PageError))
    "atlantis" API_KEY initial
  = (Ret "Error: city not found",
     record (EHttpGet (weather_url "atlantis" API_KEY)) initial).
Proof.
  apply (proj1 (proj2 get_weather_formats_response)
           (demo_env [] (Decoded not_found_response) (inl PageError))
           "atlantis" API_KEY initial
           [("cod", JStr "404"); ("message", JStr "city not found")]
           (JStr "404") (JStr "city not found")); reflexivity.
Defined.

(** *** What [capitalize] does to ASCII text *)
















(** Cities as they are written in their own scripts. *)
Example capitalize_beyond_ascii :
  map capitalize
    ["zürich"; "SÃO PAULO"; "łÓDŹ"; "reykjavík"; "ČESKÉ BUDĚJOVICE"; "İSTANBUL";
     "hà NỘI"; "москва"; "ΑΘΗΝΑΣ"; "σπάρτη"; "ßtadt"; "ǆakovo"; "þÓRSHÖFN"]
  = ["Zürich"; "São paulo"; "Łódź"; "Reykjavík"; "České budějovice"; "İstanbul";
     "Hà nội"; "Москва"; "Αθηνας"; "Σπάρτη"; "Sstadt"; "ǅakovo"; "Þórshöfn"].
Proof. vm_compute. reflexivity. Qed.

(** ** Properties of the encyclopedia lookup *)

(** C7. On a disambiguation [get_wikipedia_summary] returns the
    clarification naming the first three candidates at most, in the order
    the provider gave them; on a page that is not found, the fixed
    "couldn't find" message; on any other failure a fixed apology.  So it
    always returns a text and never raises. *)
Theorem wikipedia_lookup_never_raises (E : env) (query : string) (st : state) :
  let history := (trace st ++ [EWikiSetLang "en"])%list in
  let st' := record (EWikiSummary query 7) (record (EWikiSetLang "en") st) in
  (forall options,
      wikipedia_summary E history query 7 = inl (DisambiguationError options) ->
      get_wikipedia_summary E query st
      = (Ret ("Your query is too broad. Did you mean: "
              ++ join ", " (firstn 3 options) ++ "?"), st')
      /\ List.length (firstn 3 options) <= 3
      /\ exists rest, options = (firstn 3 options ++ rest)%list)
  /\ (wikipedia_summary E history query 7 = inl PageError ->
      get_wikipedia_summary E query st
      = (Ret "I couldn't find any information on that topic. Please try rephrasing.",
         st'))
  /\ (forall e,
      wikipedia_summary E history query 7 = inl e ->
      (forall options, e <> DisambiguationError options) ->
      e <> PageError ->
      get_wikipedia_summary E query st
      = (Ret "I encountered an issue accessing Wikipedia. Please try again later.",
         record (EPrintExn "Error accessing Wikipedia: " e) st'))
  /\ (exists text st'', get_wikipedia_summary E query st = (Ret text, st'')).
Proof.
  cbv zeta. split; [|split; [|split]].
  - intros options H. split; [|split].
    + unfold get_wikipedia_summary, try_except, bind, emit, summary_call.
      cbn [trace record]. rewrite H. reflexivity.
    + rewrite length_firstn. lia.
    + exists (skipn 3 options). symmetry. apply firstn_skipn.
  - intros H. unfold get_wikipedia_summary, try_except, bind, emit, summary_call.
    cbn [trace record]. rewrite H. reflexivity.
  - intros e H Hd Hp.
    unfold get_wikipedia_summary, try_except, bind, emit, summary_call.
    cbn [trace record]. rewrite H.
    destruct e; try reflexivity; [elim (Hd options); reflexivity|contradiction].
  - destruct (get_wikipedia_summary_run E query st) as (text & evs & Eg & _). eauto.
Qed.

Lemma wikipedia_lookup_never_raises_witness :
  get_wikipedia_summary
    (demo_env [] (HttpRaises TypeError)
       (inl (DisambiguationError
               ["Apple Inc."; "Apple (fruit)"; "Apple Records"; "Apple Corps"])))
    "apple" initial
  = (Ret "Your query is too broad. Did you mean: Apple Inc., Apple (fruit), Apple Records?",
     record (EWikiSummary "apple" 7) (record (EWikiSetLang "en") initial)).
Proof.
  apply (proj1 (wikipedia_lookup_never_raises
           (demo_env [] (HttpRaises TypeError)
              (inl (DisambiguationError
                      ["Apple Inc."; "Apple (fruit)"; "Apple Records"; "Apple Corps"])))
           "apple" initial)
           ["Apple Inc."; "Apple (fruit)"; "Apple Records"; "Apple Corps"] eq_refl).
Defined.

(** ** Properties of the turn loop *)

Lemma print_bind_eq {A} (line : string) (k : unit -> M A) (st : state) :
  bind (print line) k st = k tt (record (EPrint line) st).
Proof. reflexivity. Qed.

(** Printing a text and speaking it: [speak] returns, with the lock free
    again, and nothing was looked up or captured. *)
Lemma announce_run (E : env) (text : string) (st : state) :
  engine_lock st = false ->
  exists st',
    speak E text (record (EPrint text) st) = (Ret tt, st')
    /\ engine_lock st' = false
    /\ lookups (trace st') = lookups (trace st)
    /\ captures (trace st') = captures (trace st).
Proof.
  intros Hl.
  destruct (speak_ret E text (record (EPrint text) st) Hl) as (st' & Es & Hl' & Hk & Hc).
  destruct (emit_quiet_ret (EPrint text) st) as (_ & Hk' & Hc'); [split; reflexivity|].
  exists st'. rewrite Hk, Hc, Hk', Hc'. repeat split; assumption.
Qed.

Lemma heard_nonempty (sub u : string) :
  sub <> "" -> contains sub (lower u) = true -> is_empty u = false.
Proof.
  intros Hsub H. destruct u; [|reflexivity].
  destruct sub; [contradiction|discriminate].
Qed.

(** C4. Whenever the utterance contains "bye", in any casing and whatever
    else it contains, the loop speaks the farewell and returns; nothing is
    looked up, and no further capture is made. *)
Theorem farewell_ends_loop (E : env) (api_key : string) (st st1 : state)
    (u : string) (n : nat) :
  engine_lock st = false ->
  listen E st = (Ret u, st1) ->
  contains "bye" (lower u) = true ->
  exists st2,
    speak E "Goodbye! Talk to you soon!"
      (record (EPrint "Goodbye! Talk to you soon!") st1) = (Ret tt, st2)
    /\ turn_loop E api_key (S n) st = Some (Ret tt, st2)
    /\ lookups (trace st2) = lookups (trace st)
    /\ captures (trace st2) = S (captures (trace st)).
Proof.
  intros Hl El Hbye.
  destruct (listen_ret E st st1 u Hl El) as (Hl1 & Hk1 & Hc1).
  destruct (announce_run E "Goodbye! Talk to you soon!" st1 Hl1)
    as (st2 & Es & Hl2 & Hk2 & Hc2).
  exists st2. split; [exact Es|]. split; [|split; congruence].
  cbn [turn_loop]. unfold turn. erewrite bind_ret_eq by exact El.
  rewrite (heard_nonempty "bye" u) by (discriminate || assumption).
  rewrite Hbye, print_bind_eq. erewrite bind_ret_eq by exact Es. reflexivity.
Qed.

Lemma farewell_ends_loop_witness :
  exists st2,
    speak farewell_demo "Goodbye! Talk to you soon!"
      (record (EPrint "Goodbye! Talk to you soon!")
         (snd (listen farewell_demo initial)))
    = (Ret tt, st2)
    /\ turn_loop farewell_demo API_KEY 1 initial = Some (Ret tt, st2)
    /\ lookups (trace st2) = lookups (trace initial)
    /\ captures (trace st2) = S (captures (trace initial)).
Proof.
  apply (farewell_ends_loop farewell_demo API_KEY initial
           (snd (listen farewell_demo initial))
           "Goodbye, and check the WEATHER on wikipedia" 0); reflexivity.
Defined.

(** The closing prompt of a turn. *)
Lemma closing_prompt_run (E : env) (st : state) :
  engine_lock st = false ->
  exists st',
    speak E "Do you need help with anything else?"
      (record (EPrint "Do you need help with anything else?") st) = (Ret tt, st')
    /\ (print "Do you need help with anything else?" ;;
        speak E "Do you need help with anything else?" ;;
        ret Continue) st = (Ret Continue, st')
    /\ engine_lock st' = false
    /\ lookups (trace st') = lookups (trace st)
    /\ captures (trace st') = captures (trace st).
Proof.
  intros Hl.
  destruct (announce_run E "Do you need help with anything else?" st Hl)
    as (st' & Es & Hl' & Hk & Hc).
  exists st'. repeat split; try assumption.
  rewrite print_bind_eq. erewrite bind_ret_eq by exact Es. reflexivity.
Qed.

(** A turn on a weather question runs the weather branch, then the closing
    prompt. *)
Lemma turn_weather_eq (E : env) (api_key : string) (st st1 : state) (u : string) :
  listen E st = (Ret u, st1) ->
  contains "weather" (lower u) = true ->
  contains "bye" (lower u) = false ->
  turn E api_key st
  = (weather_branch E api_key ;;
     print "Do you need help with anything else?" ;;
     speak E "Do you need help with anything else?" ;;
     ret Continue) st1.
Proof.
  intros El Hw Hb. unfold turn. erewrite bind_ret_eq by exact El.
  rewrite (heard_nonempty "weather" u) by (discriminate || assumption).
  rewrite Hb, Hw. reflexivity.
Qed.

Lemma weather_branch_eq (E : env) (api_key : string) (st1 st2 st3 : state)
    (city : string) :
  speak E "Which city should I check?"
    (record (EPrint "Which city should I check?") st1) = (Ret tt, st2) ->
  listen E st2 = (Ret city, st3) ->
  weather_branch E api_key st1
  = (if negb (is_empty city) then
       weather_info <- get_weather E city api_key ;;
       print weather_info ;;
       speak E weather_info
     else
       print "I couldn't understand the city name. Please try again." ;;
       speak E "I couldn't understand the city name. Please try again.") st3.
Proof.
  intros Es El. unfold weather_branch. rewrite print_bind_eq.
  erewrite bind_ret_eq by exact Es. erewrite bind_ret_eq by exact El.
  reflexivity.
Qed.

Lemma turn_weather_city_eq (E : env) (api_key : string) (st st1 st2 st3 : state)
    (u city : string) :
  listen E st = (Ret u, st1) ->
  contains "weather" (lower u) = true ->
  contains "bye" (lower u) = false ->
  speak E "Which city should I check?"
    (record (EPrint "Which city should I check?") st1) = (Ret tt, st2) ->
  listen E st2 = (Ret city, st3) ->
  turn E api_key st
  = ((if negb (is_empty city) then
        weather_info <- get_weather E city api_key ;;
        print weather_info ;;
        speak E weather_info
      else
        print "I couldn't understand the city name. Please try again." ;;
        speak E "I couldn't understand the city name. Please try again.") ;;
     print "Do you need help with anything else?" ;;
     speak E "Do you need help with anything else?" ;;
     ret Continue) st3.
Proof.
  intros El Hw Hb Es El2. rewrite (turn_weather_eq E api_key st st1 u El Hw Hb).
  unfold bind at 1. rewrite (weather_branch_eq E api_key st1 st2 st3 city Es El2).
  reflexivity.
Qed.

(** The weather lookup as a step of the turn: it returns, leaves the lock
    alone, captures nothing and makes one request, for the city as given. *)
Lemma get_weather_ret (E : env) (city api_key : string) (st : state) :
  exists info st',
    get_weather E city api_key st = (Ret info, st')
    /\ engine_lock st' = engine_lock st
    /\ lookups (trace st')
       = (lookups (trace st) ++ [EHttpGet (weather_url city api_key)])%list
    /\ captures (trace st') = captures (trace st).
Proof.
  destruct (get_weather_run E city api_key st) as (info & evs & Eg & Hq).
  exists info. eexists. split; [exact Eg|]. cbn [engine_lock trace].
  change (EHttpGet (weather_url city api_key) :: evs)
    with ([EHttpGet (weather_url city api_key)] ++ evs)%list.
  rewrite !lookups_app, !captures_app.
  rewrite (quiet_lookups evs), (quiet_captures evs) by assumption.
  rewrite app_nil_r. unfold captures. simpl. repeat split. lia.
Qed.

(** C5. On an utterance that contains "weather" and not "bye", the loop
    asks for a city and captures once more, before anything is looked up;
    when that capture comes back empty it speaks the city-not-understood
    error and the turn ends with no lookup; otherwise the only lookup of the
    turn is the weather request, made after the capture. *)
Theorem weather_asks_city_once (E : env) (api_key : string) (st st1 : state)
    (u : string) :
  engine_lock st = false ->
  listen E st = (Ret u, st1) ->
  contains "weather" (lower u) = true ->
  contains "bye" (lower u) = false ->
  exists st2,
    speak E "Which city should I check?"
      (record (EPrint "Which city should I check?") st1) = (Ret tt, st2)
    /\ lookups (trace st2) = lookups (trace st)
    /\ captures (trace st2) = S (captures (trace st))
    /\ forall city st3,
         listen E st2 = (Ret city, st3) ->
         lookups (trace st3) = lookups (trace st)
         /\ captures (trace st3) = S (S (captures (trace st)))
         /\ (city = "" ->
             exists st4 st5,
               speak E "I couldn't understand the city name. Please try again."
                 (record
                    (EPrint "I couldn't understand the city name. Please try again.")
                    st3) = (Ret tt, st4)
               /\ speak E "Do you need help with anything else?"
                    (record (EPrint "Do you need help with anything else?") st4)
                  = (Ret tt, st5)
               /\ turn E api_key st = (Ret Continue, st5)
               /\ lookups (trace st5) = lookups (trace st)
               /\ captures (trace st5) = S (S (captures (trace st))))
         /\ (city <> "" ->
             exists st5,
               turn E api_key st = (Ret Continue, st5)
               /\ lookups (trace st5)
                  = (lookups (trace st) ++ [EHttpGet (weather_url city api_key)])%list
               /\ captures (trace st5) = S (S (captures (trace st)))).
Proof.
  intros Hl El Hw Hb.
  destruct (listen_ret E st st1 u Hl El) as (Hl1 & Hk1 & Hc1).
  destruct (announce_run E "Which city should I check?" st1 Hl1)
    as (st2 & Es & Hl2 & Hk2 & Hc2).
  exists st2. split; [exact Es|]. split; [congruence|]. split; [congruence|].
  intros city st3 El2.
  destruct (listen_ret E st2 st3 city Hl2 El2) as (Hl3 & Hk3 & Hc3).
  split; [congruence|]. split; [congruence|].
  rewrite (turn_weather_city_eq E api_key st st1 st2 st3 u city El Hw Hb Es El2).
  split.
  - intros ->. cbn [is_empty negb].
    destruct (announce_run E "I couldn't understand the city name. Please try again."
                st3 Hl3) as (st4 & Es4 & Hl4 & Hk4 & Hc4).
    destruct (closing_prompt_run E st4 Hl4) as (st5 & Es5 & Ep5 & Hl5 & Hk5 & Hc5).
    exists st4, st5. unfold bind at 1. rewrite print_bind_eq, Es4, Ep5.
    repeat split; congruence.
  - intros Hcity. destruct city as [|c city]; [contradiction|]. cbn [is_empty negb].
    destruct (get_weather_ret E (String c city) api_key st3)
      as (info & st4 & Eg & Hl4 & Hk4 & Hc4).
    destruct (announce_run E info st4) as (st5 & Es5 & Hl5 & Hk5 & Hc5); [congruence|].
    destruct (closing_prompt_run E st5 Hl5) as (st6 & Es6 & Ep6 & Hl6 & Hk6 & Hc6).
    exists st6. unfold bind at 1. erewrite bind_ret_eq by exact Eg.
    rewrite print_bind_eq, Es5, Ep6. repeat split; congruence.
Qed.

Lemma weather_asks_city_once_witness :
  exists st2,
    speak mumble_demo "Which city should I check?"
      (record (EPrint "Which city should I check?")
         (snd (listen mumble_demo initial))) = (Ret tt, st2)
    /\ lookups (trace st2) = lookups (trace initial)
    /\ captures (trace st2) = S (captures (trace initial))
    /\ forall city st3,
         listen mumble_demo st2 = (Ret city, st3) ->
         lookups (trace st3) = lookups (trace initial)
         /\ captures (trace st3) = S (S (captures (trace initial)))
         /\ (city = "" ->
             exists st4 st5,
               speak mumble_demo "I couldn't understand the city name. Please try again."
                 (record
                    (EPrint "I couldn't understand the city name. Please try again.")
                    st3) = (Ret tt, st4)
               /\ speak mumble_demo "Do you need help with anything else?"
                    (record (EPrint "Do you need help with anything else?") st4)
                  = (Ret tt, st5)
               /\ turn mumble_demo API_KEY initial = (Ret Continue, st5)
               /\ lookups (trace st5) = lookups (trace initial)
               /\ captures (trace st5) = S (S (captures (trace initial))))
         /\ (city <> "" ->
             exists st5,
               turn mumble_demo API_KEY initial = (Ret Continue, st5)
               /\ lookups (trace st5)
                  = (lookups (trace initial) ++ [EHttpGet (weather_url city API_KEY)])%list
               /\ captures (trace st5) = S (S (captures (trace initial)))).
Proof.
  apply (weather_asks_city_once mumble_demo API_KEY initial
           (snd (listen mumble_demo initial)) "What's the WEATHER like");
    reflexivity.
Defined.

(** C10. Whatever non-empty text the capture at the city prompt returns is
    the city: it goes as it is into the weather request, also when it
    contains "bye" or another trigger word, and the loop goes on to its next
    turn. *)
Theorem city_reply_is_taken_verbatim (E : env) (api_key : string)
    (st st1 st2 st3 : state) (u city : string) :
  engine_lock st = false ->
  listen E st = (Ret u, st1) ->
  contains "weather" (lower u) = true ->
  contains "bye" (lower u) = false ->
  speak E "Which city should I check?"
    (record (EPrint "Which city should I check?") st1) = (Ret tt, st2) ->
  listen E st2 = (Ret city, st3) ->
  city <> "" ->
  exists info st4 st5 st6,
    get_weather E city api_key st3 = (Ret info, st4)
    /\ lookups (trace st4)
       = (lookups (trace st) ++ [EHttpGet (weather_url city api_key)])%list
    /\ speak E info (record (EPrint info) st4) = (Ret tt, st5)
    /\ speak E "Do you need help with anything else?"
         (record (EPrint "Do you need help with anything else?") st5) = (Ret tt, st6)
    /\ turn E api_key st = (Ret Continue, st6)
    /\ lookups (trace st6) = lookups (trace st4)
    /\ forall n, turn_loop E api_key (S n) st = turn_loop E api_key n st6.
Proof.
  intros Hl El Hw Hb Es El2 Hcity.
  destruct (listen_ret E st st1 u Hl El) as (Hl1 & Hk1 & Hc1).
  destruct (announce_run E "Which city should I check?" st1 Hl1)
    as (st2' & Es' & Hl2 & Hk2 & Hc2).
  rewrite Es in Es'. injection Es' as <-.
  destruct (listen_ret E st2 st3 city Hl2 El2) as (Hl3 & Hk3 & Hc3).
  destruct (get_weather_ret E city api_key st3) as (info & st4 & Eg & Hl4 & Hk4 & Hc4).
  destruct (announce_run E info st4) as (st5 & Es5 & Hl5 & Hk5 & Hc5); [congruence|].
  destruct (closing_prompt_run E st5 Hl5) as (st6 & Es6 & Ep6 & Hl6 & Hk6 & Hc6).
  assert (Et : turn E api_key st = (Ret Continue, st6)).
  { rewrite (turn_weather_city_eq E api_key st st1 st2 st3 u city El Hw Hb Es El2).
    destruct city as [|c city]; [contradiction|]. cbn [is_empty negb].
    unfold bind at 1. erewrite bind_ret_eq by exact Eg.
    rewrite print_bind_eq, Es5, Ep6. reflexivity. }
  exists info, st4, st5, st6. repeat split; try congruence.
  intros n. cbn [turn_loop]. rewrite Et. reflexivity.
Qed.

Lemma city_reply_is_taken_verbatim_witness :
  exists info st4 st5 st6,
    get_weather weather_demo "goodbye" API_KEY
      (snd (listen weather_demo
              (snd (speak weather_demo "Which city should I check?"
                      (record (EPrint "Which city should I check?")
                         (snd (listen weather_demo initial)))))))
    = (Ret info, st4)
    /\ lookups (trace st4)
       = (lookups (trace initial) ++ [EHttpGet (weather_url "goodbye" API_KEY)])%list
    /\ speak weather_demo info (record (EPrint info) st4) = (Ret tt, st5)
    /\ speak weather_demo "Do you need help with anything else?"
         (record (EPrint "Do you need help with anything else?") st5) = (Ret tt, st6)
    /\ turn weather_demo API_KEY initial = (Ret Continue, st6)
    /\ lookups (trace st6) = lookups (trace st4)
    /\ forall n, turn_loop weather_demo API_KEY (S n) initial
                 = turn_loop weather_demo API_KEY n st6.
Proof.
  apply (city_reply_is_taken_verbatim weather_demo API_KEY initial
           (snd (listen weather_demo initial))
           (snd (speak weather_demo "Which city should I check?"
                   (record (EPrint "Which city should I check?")
                      (snd (listen weather_demo initial)))))
           (snd (listen weather_demo
                   (snd (speak weather_demo "Which city should I check?"
                           (record (EPrint "Which city should I check?")
                              (snd (listen weather_demo initial)))))))
           "What's the WEATHER like" "goodbye");
    (reflexivity || discriminate).
Defined.

Lemma get_wikipedia_summary_ret (E : env) (query : string) (st : state) :
  exists summary st',
    get_wikipedia_summary E query st = (Ret summary, st')
    /\ engine_lock st' = engine_lock st
    /\ lookups (trace st') = (lookups (trace st) ++ [EWikiSummary query 7])%list
    /\ captures (trace st') = captures (trace st).
Proof.
  destruct (get_wikipedia_summary_run E query st) as (summary & evs & Eg & Hq).
  exists summary. eexists. split; [exact Eg|]. cbn [engine_lock trace].
  change (EWikiSetLang "en" :: EWikiSummary query 7 :: evs)
    with ([EWikiSetLang "en"; EWikiSummary query 7] ++ evs)%list.
  rewrite !lookups_app, !captures_app.
  rewrite (quiet_lookups evs), (quiet_captures evs) by assumption.
  rewrite app_nil_r. unfold captures. simpl. repeat split. lia.
Qed.

Lemma classify_encyclopedia (u : string) :
  classify u = EncyclopediaQuery ->
  is_empty u = false
  /\ contains "bye" (lower u) = false
  /\ contains "weather" (lower u) = false
  /\ contains "Wikipedia" (lower u) || contains "tell me about" (lower u) = true.
Proof.
  unfold classify. intros H.
  destruct (contains "bye" (lower u)); [discriminate|].
  destruct (contains "weather" (lower u)); [discriminate|].
  destruct (contains "Wikipedia" (lower u) || contains "tell me about" (lower u)) eqn:Hc;
    [|discriminate].
  repeat split. destruct u; [discriminate Hc|reflexivity].
Qed.

Lemma turn_wikipedia_eq (E : env) (api_key : string) (st st1 : state) (u : string) :
  listen E st = (Ret u, st1) ->
  classify u = EncyclopediaQuery ->
  turn E api_key st
  = (wikipedia_branch E u ;;
     print "Do you need help with anything else?" ;;
     speak E "Do you need help with anything else?" ;;
     ret Continue) st1.
Proof.
  intros El Hc. destruct (classify_encyclopedia u Hc) as (Hne & Hb & Hw & Ht).
  unfold turn. erewrite bind_ret_eq by exact El.
  rewrite Hne, Hb, Hw, Ht. reflexivity.
Qed.

(** C8, as amended.  On an utterance that the loop takes for an
    encyclopedia question, the topic is the utterance with "Wikipedia",
    written with its capital, and "tell me about" removed as they are written
    and the whitespace around trimmed; on an empty topic the loop asks for a
    topic and looks nothing up, otherwise it announces the search and looks
    that topic up. *)
Theorem encyclopedia_topic_lookup (E : env) (api_key : string) (st st1 : state)
    (u : string) :
  engine_lock st = false ->
  listen E st = (Ret u, st1) ->
  classify u = EncyclopediaQuery ->
  let topic := strip (replace "tell me about" "" (replace "Wikipedia" "" u)) in
  (topic = "" ->
   exists st2 st3,
     speak E "Please specify a topic for me to search."
       (record (EPrint "Please specify a topic for me to search.") st1) = (Ret tt, st2)
     /\ speak E "Do you need help with anything else?"
          (record (EPrint "Do you need help with anything else?") st2) = (Ret tt, st3)
     /\ turn E api_key st = (Ret Continue, st3)
     /\ lookups (trace st3) = lookups (trace st))
  /\ (topic <> "" ->
      exists st2 summary st3 st4 st5,
        speak E ("Searching Wikipedia for " ++ topic ++ "...")
          (record (EPrint ("Searching Wikipedia for " ++ topic ++ "...")) st1)
        = (Ret tt, st2)
        /\ lookups (trace st2) = lookups (trace st)
        /\ get_wikipedia_summary E topic st2 = (Ret summary, st3)
        /\ lookups (trace st3) = (lookups (trace st) ++ [EWikiSummary topic 7])%list
        /\ speak E summary (record (EPrint summary) st3) = (Ret tt, st4)
        /\ speak E "Do you need help with anything else?"
             (record (EPrint "Do you need help with anything else?") st4) = (Ret tt, st5)
        /\ turn E api_key st = (Ret Continue, st5)
        /\ lookups (trace st5) = lookups (trace st3)).
Proof.
  intros Hl El Hc topic.
  destruct (listen_ret E st st1 u Hl El) as (Hl1 & Hk1 & Hc1).
  rewrite (turn_wikipedia_eq E api_key st st1 u El Hc).
  unfold bind at 1. unfold bind at 3. unfold wikipedia_branch. cbv zeta.
  change (extract_topic u) with topic.
  split.
  - intros Ht. rewrite Ht. cbn [is_empty negb].
    destruct (announce_run E "Please specify a topic for me to search." st1 Hl1)
      as (st2 & Es2 & Hl2 & Hk2 & Hc2).
    destruct (closing_prompt_run E st2 Hl2) as (st3 & Es3 & Ep3 & Hl3 & Hk3 & Hc3).
    exists st2, st3. rewrite print_bind_eq, Es2, Ep3. repeat split; congruence.
  - intros Ht.
    assert (Hne : negb (is_empty topic) = true)
      by (destruct topic; [contradiction|reflexivity]).
    rewrite Hne. clearbody topic.
    destruct (announce_run E ("Searching Wikipedia for " ++ topic ++ "...") st1 Hl1)
      as (st2 & Es2 & Hl2 & Hk2 & Hc2).
    destruct (get_wikipedia_summary_ret E topic st2)
      as (summary & st3 & Eg & Hl3 & Hk3 & Hc3).
    destruct (announce_run E summary st3) as (st4 & Es4 & Hl4 & Hk4 & Hc4);
      [congruence|].
    destruct (closing_prompt_run E st4 Hl4) as (st5 & Es5 & Ep5 & Hl5 & Hk5 & Hc5).
    exists st2, summary, st3, st4, st5.
    rewrite print_bind_eq. erewrite bind_ret_eq by exact Es2.
    erewrite bind_ret_eq by exact Eg. rewrite print_bind_eq, Es4, Ep5.
    repeat split; congruence.
Qed.

Lemma encyclopedia_topic_lookup_witness :
  let E := topic_demo "tell me about the Eiffel Tower" in
  let st1 := snd (listen E initial) in
  let topic :=
    strip (replace "tell me about" ""
             (replace "Wikipedia" "" "tell me about the Eiffel Tower")) in
  (topic = "" ->
   exists st2 st3,
     speak E "Please specify a topic for me to search."
       (record (EPrint "Please specify a topic for me to search.") st1) = (Ret tt, st2)
     /\ speak E "Do you need help with anything else?"
          (record (EPrint "Do you need help with anything else?") st2) = (Ret tt, st3)
     /\ turn E API_KEY initial = (Ret Continue, st3)
     /\ lookups (trace st3) = lookups (trace initial))
  /\ (topic <> "" ->
      exists st2 summary st3 st4 st5,
        speak E ("Searching Wikipedia for " ++ topic ++ "...")
          (record (EPrint ("Searching Wikipedia for " ++ topic ++ "...")) st1)
        = (Ret tt, st2)
        /\ lookups (trace st2) = lookups (trace initial)
        /\ get_wikipedia_summary E topic st2 = (Ret summary, st3)
        /\ lookups (trace st3)
           = (lookups (trace initial) ++ [EWikiSummary topic 7])%list
        /\ speak E summary (record (EPrint summary) st3) = (Ret tt, st4)
        /\ speak E "Do you need help with anything else?"
             (record (EPrint "Do you need help with anything else?") st4) = (Ret tt, st5)
        /\ turn E API_KEY initial = (Ret Continue, st5)
        /\ lookups (trace st5) = lookups (trace st3)).
Proof.
  apply (encyclopedia_topic_lookup (topic_demo "tell me about the Eiffel Tower")
           API_KEY initial
           (snd (listen (topic_demo "tell me about the Eiffel Tower") initial))
           "tell me about the Eiffel Tower"); reflexivity.
Defined.

(** C8, as stated, fails on "wikipedia" written without its capital: the
    utterance "tell me about wikipedia" is an encyclopedia question whose
    topic, with both trigger phrases removed, would be empty; the loop keeps
    "wikipedia" as the topic and looks it up.  With the capital it is the
    other way round. *)
Lemma topic_removal_spares_lowercase_wikipedia :
  classify "tell me about wikipedia" = EncyclopediaQuery
  /\ spec_topic "tell me about wikipedia" = ""
  /\ extract_topic "tell me about wikipedia" = "wikipedia"
  /\ lookups (trace (snd (turn (topic_demo "tell me about wikipedia")
                            API_KEY initial)))
     = [EWikiSummary "wikipedia" 7]
  /\ spec_topic "tell me about Wikipedia" = "Wikipedia"
  /\ extract_topic "tell me about Wikipedia" = ""
  /\ lookups (trace (snd (turn (topic_demo "tell me about Wikipedia")
                            API_KEY initial)))
     = [].
Proof. repeat split; reflexivity. Qed.

(** ** Intents *)

Lemma lower_char_not_W (c : ascii) : lower_char c <> "W"%char.
Proof.
  destruct c as [b0 b1 b2 b3 b4 b5 b6 b7].
  destruct b0, b1, b2, b3, b4, b5, b6, b7; vm_compute; discriminate.
Qed.

(** The test ["Wikipedia" in user_query.lower()] holds of no utterance. *)
Lemma capital_wikipedia_never_found (u : string) :
  contains "Wikipedia" (lower u) = false.
Proof.
  induction u as [|c u IH]; [reflexivity|].
  cbn [lower contains]. rewrite IH, orb_false_r.
  cbn [prefix]. destruct (ascii_dec "W" (lower_char c)) as [H|H]; [|reflexivity].
  symmetry in H. elim (lower_char_not_W c H).
Qed.

(** Whatever the casing of the utterance, the branch is the same. *)
Lemma classify_case_insensitive (u v : string) :
  lower u = lower v -> classify u = classify v.
Proof. unfold classify. intros ->. reflexivity. Qed.

Lemma lower_idempotent (u : string) : lower (lower u) = lower u.
Proof.
  induction u as [|c u IH]; [reflexivity|]. cbn [lower]. rewrite IH. f_equal.
  destruct c as [b0 b1 b2 b3 b4 b5 b6 b7].
  destruct b0, b1, b2, b3, b4, b5, b6, b7; reflexivity.
Qed.

(** The branch taken agrees with the intent of the specification, except
    on the utterances that only "wikipedia" would make an encyclopedia
    question: those go to open chat. *)
Lemma classify_against_spec (u : string) :
  classify u = spec_intent u
  \/ (spec_intent u = EncyclopediaQuery /\ classify u = OpenChat
      /\ contains "wikipedia" (lower u) = true
      /\ contains "tell me about" (lower u) = false).
Proof.
  unfold classify, spec_intent. rewrite capital_wikipedia_never_found.
  destruct (contains "bye" (lower u)); [left; reflexivity|].
  destruct (contains "weather" (lower u)); [left; reflexivity|].
  destruct (contains "tell me about" (lower u));
    [left; rewrite !orb_true_r; reflexivity|].
  destruct (contains "wikipedia" (lower u)); [right|left]; repeat split.
Qed.

(** C1, where the code departs from it.  The loop looks for "Wikipedia",
    with a capital, in the lower-cased utterance, where it can never be; an
    utterance whose only trigger is "wikipedia" is an encyclopedia question
    by the claim and is answered by the open chat: the generator is called,
    the encyclopedia is not. *)
Theorem wikipedia_trigger_is_dead :
  (forall u, contains "Wikipedia" (lower u) = false)
  /\ spec_intent "search wikipedia for cats" = EncyclopediaQuery
  /\ classify "search wikipedia for cats" = OpenChat
  /\ lookups (trace (snd (turn (topic_demo "search wikipedia for cats")
                            API_KEY initial)))
     = [EGenerate "search wikipedia for cats" 100 1]
  /\ classify "search WIKIPEDIA for cats" = OpenChat
  /\ classify "search Wikipedia for cats" = OpenChat.
Proof.
  split; [exact capital_wikipedia_never_found|]. repeat split; reflexivity.
Qed.

(** ** The whole session *)

(** An empty capture in the main listening state only loops back. *)
Lemma empty_capture_retries (E : env) (api_key : string) (st st1 : state) (n : nat) :
  listen E st = (Ret EmptyString, st1) ->
  turn E api_key st = (Ret Continue, st1)
  /\ turn_loop E api_key (S n) st = turn_loop E api_key n st1.
Proof.
  intros El. assert (Et : turn E api_key st = (Ret Continue, st1)).
  { unfold turn. erewrite bind_ret_eq by exact El. reflexivity. }
  split; [exact Et|]. cbn [turn_loop]. rewrite Et. reflexivity.
Qed.

Example session_ends_on_farewell :
  option_map fst (ai_talking_friend farewell_demo API_KEY 1 initial) = Some (Ret tt)
  /\ option_map (fun r => said (trace (snd r)))
       (ai_talking_friend farewell_demo API_KEY 1 initial)
     = Some [greeting; "Goodbye! Talk to you soon!"]
  /\ option_map (fun r => lookups (trace (snd r)))
       (ai_talking_friend farewell_demo API_KEY 1 initial)
     = Some [].
Proof. repeat split; vm_compute; reflexivity. Qed.

Example session_weather_with_goodbye_as_city :
  fst (turn weather_demo API_KEY initial) = Ret Continue
  /\ said (trace (snd (turn weather_demo API_KEY initial)))
     = ["Which city should I check?";
        "Goodbye weather: clear sky, 21.0°C, feels like 20.5°C.";
        "Do you need help with anything else?"]
  /\ lookups (trace (snd (turn weather_demo API_KEY initial)))
     = [EHttpGet (weather_url "goodbye" API_KEY)].
Proof. repeat split; vm_compute; reflexivity. Qed.

Example session_still_running :
  ai_talking_friend weather_demo API_KEY 1 initial = None.
Proof. reflexivity. Qed.

(** ** Python's text operations on examples *)

Example lower_mixed : lower "Tell Me ABOUT Bye-Bye 42" = "tell me about bye-bye 42".
Proof. reflexivity. Qed.

Example replace_all_occurrences : replace "ab" "-" "xabyababz" = "x-y--z".
Proof. reflexivity. Qed.

Example replace_left_to_right : replace "aa" "b" "aaa" = "ba".
Proof. reflexivity. Qed.

Example strip_both_ends : strip "  a b  " = "a b".
Proof. reflexivity. Qed.

Example slice_keeps_characters_whole : slice_to 3 "20°C." = "20°".
Proof. reflexivity. Qed.

Example floats_as_python_prints_them :
  map repr_float
    [FDec false 210 (-1); FDec false 205 (-1); FDec true 5 (-1); FDec false 2103 (-2);
     FDec false 1 16; FDec false 1 15; FDec false 1 (-4); FDec false 1 (-5);
     FDec false 0 0]
  = ["21.0"; "20.5"; "-0.5"; "21.03"; "1e+16"; "1000000000000000.0"; "0.0001";
     "1e-05"; "0.0"].
Proof. reflexivity. Qed.

Example message_that_is_not_a_text :
  str (JArr [JInt (-3); JNull; JStr "x"; JBool true]) = "[-3, None, 'x', True]".
Proof. reflexivity. Qed.

(** ** Cues: [play_beep] *)

(** X1. [play_beep] never raises.  Without the sound file nothing is played
    and nothing printed; with it the file is played once, and a failure of
    the playback is printed and goes no further. *)
Theorem play_beep_never_raises (E : env) (start : bool) (st : state) :
  let file := if start then START_BEEP_PATH else STOP_BEEP_PATH in
  (path_exists E file = false -> play_beep E start st = (Ret tt, st))
  /\ (path_exists E file = true ->
      playsound E (trace st) file = None ->
      play_beep E start st = (Ret tt, record (EPlaysound file) st))
  /\ (forall e,
      path_exists E file = true ->
      playsound E (trace st) file = Some e ->
      play_beep E start st
      = (Ret tt,
         record (EPrintExn ("Error while playing " ++ file ++ ": ") e)
           (record (EPlaysound file) st))).
Proof.
  cbv zeta. unfold play_beep. cbv zeta.
  set (file := if start then START_BEEP_PATH else STOP_BEEP_PATH).
  split; [|split].
  - intros ->. reflexivity.
  - intros -> Hp. unfold try_except, playsound_call. rewrite Hp. reflexivity.
  - intros e -> Hp. unfold try_except, playsound_call. rewrite Hp. reflexivity.
Qed.

Lemma play_beep_never_raises_witness :
  play_beep failing_tts_env false initial
  = (Ret tt,
     record (EPrintExn ("Error while playing " ++ STOP_BEEP_PATH ++ ": ")
               (OtherException "PlaysoundException"))
       (record (EPlaysound STOP_BEEP_PATH) initial)).
Proof.
  apply (proj2 (proj2 (play_beep_never_raises failing_tts_env false initial))
           (OtherException "PlaysoundException")); reflexivity.
Defined.

(** ** More on Respond *)

Lemma said_app (tr evs : list event) : said (tr ++ evs) = (said tr ++ said evs)%list.
Proof.
  induction tr as [|ev tr IH]; [reflexivity|].
  destruct ev; simpl; try assumption.
  destruct op; simpl; rewrite ?IH; reflexivity.
Qed.

Lemma device_calls_app (tr evs : list event) :
  device_calls (tr ++ evs) = (device_calls tr ++ device_calls evs)%list.
Proof.
  induction tr as [|ev tr IH]; [reflexivity|].
  destruct ev; simpl; rewrite ?IH; reflexivity.
Qed.

(** X2. With the SAPI voice, [speak] calls the device exactly once, with the
    text as it was given, whether the call succeeds or raises. *)
Theorem speak_sapi_says_text_once (E : env) (text : string) (st : state) :
  USE_WIN32 E = true ->
  engine_lock st = false ->
  exists st',
    speak E text st = (Ret tt, st')
    /\ device_calls (trace st') = (device_calls (trace st) ++ [SapiSpeak text])%list
    /\ said (trace st') = (said (trace st) ++ [text])%list.
Proof.
  intros Hw Hl.
  unfold speak, bind, print, emit, with_lock, acquire, try_except, device, record.
  cbn [engine_lock trace]. rewrite Hl, Hw. cbn [engine_lock trace].
  destruct (tts E _ (SapiSpeak text)); cbn [engine_lock trace];
    (eexists; split; [reflexivity|]); unfold release, record; cbn [trace];
    rewrite !device_calls_app, !said_app; simpl; rewrite !app_nil_r; split; reflexivity.
Qed.

Lemma speak_sapi_says_text_once_witness :
  exists st',
    speak silent_env "hello there" initial = (Ret tt, st')
    /\ device_calls (trace st')
       = (device_calls (trace initial) ++ [SapiSpeak "hello there"])%list
    /\ said (trace st') = (said (trace initial) ++ ["hello there"])%list.
Proof.
  apply (speak_sapi_says_text_once silent_env "hello there" initial); reflexivity.
Defined.

(** X3. With the pyttsx3 fallback, when the engine cannot be initialised
    [speak] makes no other call on the device: the text is never said, the
    error is reported, the lock released, and [speak] returns. *)
Theorem speak_fallback_init_failure (E : env) (text : string) (st : state) (e : exn) :
  USE_WIN32 E = false ->
  (forall history, tts E history EngineInit = Some e) ->
  engine_lock st = false ->
  speak E text st
  = (Ret tt,
     {| engine_lock := false;
        trace := trace st ++
                 [EPrint ("[SPEAK] Attempting to speak: " ++ slice_to 50 text ++ "...");
                  EAcquire;
                  EDevice EngineInit true;
                  EPrintExn "[SPEAK ERROR] " e;
                  ETraceback e;
                  ERelease] |}).
Proof.
  intros Hw Hinit Hl.
  unfold speak, with_lock, acquire, try_except.
  unfold bind at 1. unfold print, emit, record. cbn [engine_lock trace].
  rewrite Hl, Hw. cbn [engine_lock trace].
  unfold bind at 1. unfold device at 1. rewrite Hinit. cbn [engine_lock trace].
  unfold bind, emit, release, record. cbn [engine_lock trace].
  repeat rewrite <- app_assoc. reflexivity.
Qed.

Lemma speak_fallback_init_failure_witness :
  speak no_engine_env "hello" initial
  = (Ret tt,
     {| engine_lock := false;
        trace := trace initial ++
                 [EPrint ("[SPEAK] Attempting to speak: " ++ slice_to 50 "hello" ++ "...");
                  EAcquire;
                  EDevice EngineInit true;
                  EPrintExn "[SPEAK ERROR] " (OtherException "RuntimeError");
                  ETraceback (OtherException "RuntimeError");
                  ERelease] |}).
Proof.
  apply (speak_fallback_init_failure no_engine_env "hello" initial
           (OtherException "RuntimeError")); reflexivity.
Defined.

(** ** More on Capture *)








Example double_end_cue_on_transcription_failure :
  stop_cues (trace (snd (listen failing_tts_env initial))) = 2.
Proof. reflexivity. Qed.

(** X5. Whenever [listen] returns, it has made exactly one audio capture
    and no lookup, and the speech lock is free again. *)
Theorem listen_captures_once (E : env) (st st' : state) (q : string) :
  engine_lock st = false ->
  listen E st = (Ret q, st') ->
  engine_lock st' = false
  /\ lookups (trace st') = lookups (trace st)
  /\ captures (trace st') = S (captures (trace st)).
Proof. intros Hl El. exact (listen_ret E st st' q Hl El). Qed.

Lemma listen_captures_once_witness :
  engine_lock (snd (listen silent_env initial)) = false
  /\ lookups (trace (snd (listen silent_env initial))) = lookups (trace initial)
  /\ captures (trace (snd (listen silent_env initial))) = S (captures (trace initial)).
Proof.
  apply (listen_captures_once silent_env initial (snd (listen silent_env initial))
           EmptyString); reflexivity.
Defined.

(** ** Python's [strip] *)

Lemma lstrip_first (s : string) : first_is_space (lstrip s) = false.
Proof.
  induction s as [|c s IH]; [reflexivity|]. cbn [lstrip].
  destruct (is_space c) eqn:Hc; [assumption|]. cbn [first_is_space]. assumption.
Qed.

Lemma rstrip_last (s : string) : last_is_space (rstrip s) = false.
Proof.
  induction s as [|c s IH]; [reflexivity|]. cbn [rstrip].
  destruct (rstrip s) as [|d r].
  - destruct (is_space c) eqn:Hc; [reflexivity|]. cbn [last_is_space]. assumption.
  - cbn [last_is_space] in *. assumption.
Qed.

Lemma rstrip_first (s : string) :
  first_is_space s = false -> first_is_space (rstrip s) = false.
Proof.
  destruct s as [|c s]; [reflexivity|]. cbn [first_is_space rstrip]. intros Hc.
  destruct (rstrip s); [rewrite Hc|]; cbn [first_is_space]; assumption.
Qed.

Lemma strip_trimmed (s : string) : trimmed (strip s).
Proof.
  unfold strip. split; [apply rstrip_first, lstrip_first|apply rstrip_last].
Qed.

(** ** The generated reply *)

(** X6. [generate_ai_response] always returns a reply, with no whitespace
    at either end.  Without a generator it answers that generation is not
    available and calls nothing; with one it calls it once with the prompt
    as given, and returns the generated text stripped, or, when the call
    raises, a fixed apology. *)
Theorem generate_ai_response_reply (E : env) (prompt : string) (st : state) :
  (exists reply st',
      generate_ai_response E prompt st = (Ret reply, st') /\ trimmed reply)
  /\ (generator E = None ->
      generate_ai_response E prompt st
      = (Ret "AI generation isn't available at the moment.", st))
  /\ (forall g text,
      generator E = Some g ->
      g (trace st) prompt = inr text ->
      generate_ai_response E prompt st
      = (Ret (strip text), record (EGenerate prompt 100 1) st))
  /\ (forall g e,
      generator E = Some g ->
      g (trace st) prompt = inl e ->
      generate_ai_response E prompt st
      = (Ret "I couldn't think of a response. Let me try again later.",
         record (EPrintExn "Error generating AI response: " e)
           (record (EGenerate prompt 100 1) st))).
Proof.
  unfold generate_ai_response.
  destruct (generator E) as [g|].
  - unfold try_except, bind, generate_call.
    destruct (g (trace st) prompt) as [e|text] eqn:Hg.
    + split; [|split; [discriminate|split]].
      * do 2 eexists. split; [reflexivity|]. split; reflexivity.
      * intros g' text [= <-] Hg'. rewrite Hg in Hg'. discriminate.
      * intros g' e' [= <-] Hg'. rewrite Hg in Hg'. injection Hg' as <-. reflexivity.
    + split; [|split; [discriminate|split]].
      * do 2 eexists. split; [reflexivity|]. apply strip_trimmed.
      * intros g' text' [= <-] Hg'. rewrite Hg in Hg'. injection Hg' as <-. reflexivity.
      * intros g' e' [= <-] Hg'. rewrite Hg in Hg'. discriminate.
  - split; [|split; [reflexivity|split; discriminate]].
    do 2 eexists. split; [reflexivity|]. split; reflexivity.
Qed.

Lemma generate_ai_response_reply_witness :
  generate_ai_response chat_demo "how are you today" initial
  = (Ret "You asked: how are you today",
     record (EGenerate "how are you today" 100 1) initial).
Proof.
  apply (proj1 (proj2 (proj2 (generate_ai_response_reply chat_demo
                                "how are you today" initial)))
           (fun _ prompt => inr ("  You asked: " ++ prompt ++ " "))
           "  You asked: how are you today "); reflexivity.
Defined.

(** ** More on the weather lookup *)

(** X7. [get_weather] never raises: whatever the service does, it returns
    a text after exactly one request, for the address built from the city
    and the key as given, with no capture and the lock untouched. *)
Theorem get_weather_never_raises (E : env) (city api_key : string) (st : state) :
  exists info st',
    get_weather E city api_key st = (Ret info, st')
    /\ engine_lock st' = engine_lock st
    /\ lookups (trace st')
       = (lookups (trace st) ++ [EHttpGet (weather_url city api_key)])%list
    /\ captures (trace st') = captures (trace st).
Proof. exact (get_weather_ret E city api_key st). Qed.

(** X8. When the request fails, or its answer is not JSON, [get_weather]
    prints the error and returns the fixed apology. *)
Theorem get_weather_transport_failure (E : env) (city api_key : string)
    (st : state) (e : exn) :
  requests_get E (trace st) (weather_url city api_key) = HttpRaises e
  \/ requests_get E (trace st) (weather_url city api_key) = JsonRaises e ->
  get_weather E city api_key st
  = (Ret "I couldn't fetch the weather details. Please try later.",
     record (EPrintExn "Error fetching weather data: " e)
       (record (EHttpGet (weather_url city api_key)) st)).
Proof.
  intros [H|H]; unfold get_weather; cbv zeta;
    unfold try_except; unfold bind at 1; unfold http_json; rewrite H; reflexivity.
Qed.

Lemma get_weather_transport_failure_witness :
  get_weather silent_env "paris" API_KEY initial
  = (Ret "I couldn't fetch the weather details. Please try later.",
     record (EPrintExn "Error fetching weather data: " (OtherException "ConnectionError"))
       (record (EHttpGet (weather_url "paris" API_KEY)) initial)).
Proof.
  apply (get_weather_transport_failure silent_env "paris" API_KEY initial
           (OtherException "ConnectionError")).
  left. reflexivity.
Defined.

(** X9. An answer that is not an object, or an object with no [cod], or
    one whose [cod] is not 200 and that has no [message], gives the fixed
    apology: the failed access is caught like any other error. *)
Theorem get_weather_answer_without_status (E : env) (city api_key : string)
    (st : state) (data : json) :
  requests_get E (trace st) (weather_url city api_key) = Decoded data ->
  let apologise (e : exn) :=
    (Ret "I couldn't fetch the weather details. Please try later.",
     record (EPrintExn "Error fetching weather data: " e)
       (record (EHttpGet (weather_url city api_key)) st)) in
  ((forall fields, data <> JObj fields) ->
   get_weather E city api_key st = apologise TypeError)
  /\ (forall fields,
      data = JObj fields -> assoc "cod" fields = None ->
      get_weather E city api_key st = apologise KeyError)
  /\ (forall fields cod,
      data = JObj fields -> assoc "cod" fields = Some cod ->
      eq_int cod 200 = false -> assoc "message" fields = None ->
      get_weather E city api_key st = apologise KeyError).
Proof.
  intros H. cbv zeta. unfold get_weather. cbv zeta.
  rewrite (get_weather_decoded _ _ _ _ _ _ _ H).
  split; [|split].
  - intros Hno. destruct data; try reflexivity. elim (Hno fields). reflexivity.
  - intros fields -> Hcod. unfold try_except, bind, getitem. rewrite Hcod. reflexivity.
  - intros fields cod -> Hcod Hne Hmsg. unfold try_except, bind, getitem.
    rewrite Hcod. unfold ret at 1. rewrite Hne. cbn [negb]. rewrite Hmsg. reflexivity.
Qed.

Lemma get_weather_answer_without_status_witness :
  get_weather (demo_env [] (Decoded text_status_response) (inl PageError))
    "paris" API_KEY initial
  = (Ret "I couldn't fetch the weather details. Please try later.",
     record (EPrintExn "Error fetching weather data: " KeyError)
       (record (EHttpGet (weather_url "paris" API_KEY)) initial)).
Proof.
  apply (proj2 (proj2 (get_weather_answer_without_status
                         (demo_env [] (Decoded text_status_response) (inl PageError))
                         "paris" API_KEY initial text_status_response eq_refl))
           [("cod", JStr "200");
            ("weather", JArr [JObj [("description", JStr "clear sky")]]);
            ("main", JObj [("temp", JInt 21); ("feels_like", JInt 20)])]
           (JStr "200")); reflexivity.
Defined.

(** X10. A [cod] that is a text is never the number 200, whatever it
    spells: the answer is then read as an error, and reported with its
    [message] even if it carries a complete weather report.  A [cod] that
    is the float 200.0 or the integer 200 is a success. *)
Theorem get_weather_text_status_is_error (E : env) (city api_key : string)
    (st : state) (fields : list (string * json)) (status : string) (message : json) :
  requests_get E (trace st) (weather_url city api_key) = Decoded (JObj fields) ->
  assoc "cod" fields = Some (JStr status) ->
  assoc "message" fields = Some message ->
  get_weather E city api_key st
  = (Ret ("Error: " ++ str message),
     record (EHttpGet (weather_url city api_key)) st)
  /\ eq_int (JFloat (FDec false 2000 (-1))) 200 = true
  /\ eq_int (JInt 200) 200 = true.
Proof.
  intros H Hcod Hmsg. split; [|split; reflexivity].
  unfold get_weather. cbv zeta. rewrite (get_weather_decoded _ _ _ _ _ _ _ H).
  unfold try_except, bind, getitem. rewrite Hcod. unfold ret at 1.
  cbn [eq_int negb]. rewrite Hmsg. reflexivity.
Qed.

Lemma get_weather_text_status_is_error_witness :
  get_weather (demo_env [] (Decoded not_found_response) (inl PageError))
    "atlantis" API_KEY initial
  = (Ret ("Error: " ++ str (JStr "city not found")),
     record (EHttpGet (weather_url "atlantis" API_KEY)) initial)
  /\ eq_int (JFloat (FDec false 2000 (-1))) 200 = true
  /\ eq_int (JInt 200) 200 = true.
Proof.
  apply (get_weather_text_status_is_error
           (demo_env [] (Decoded not_found_response) (inl PageError))
           "atlantis" API_KEY initial
           [("cod", JStr "404"); ("message", JStr "city not found")]
           "404" (JStr "city not found")); reflexivity.
Defined.

(** X11. A successful status with an incomplete report gives the fixed
    apology: no [weather] entry, an empty [weather] list, or no [main]
    entry. *)
Theorem get_weather_incomplete_report (E : env) (city api_key : string)
    (st : state) (fields : list (string * json)) (cod : json) :
  requests_get E (trace st) (weather_url city api_key) = Decoded (JObj fields) ->
  assoc "cod" fields = Some cod ->
  eq_int cod 200 = true ->
  let apologise (e : exn) :=
    (Ret "I couldn't fetch the weather details. Please try later.",
     record (EPrintExn "Error fetching weather data: " e)
       (record (EHttpGet (weather_url city api_key)) st)) in
  (assoc "weather" fields = None ->
   get_weather E city api_key st = apologise KeyError)
  /\ (assoc "weather" fields = Some (JArr []) ->
      get_weather E city api_key st = apologise IndexError)
  /\ (forall first more description,
      assoc "weather" fields = Some (JArr (JObj first :: more)) ->
      assoc "description" first = Some description ->
      assoc "main" fields = None ->
      get_weather E city api_key st = apologise KeyError).
Proof.
  intros H Hcod Hok. cbv zeta. unfold get_weather. cbv zeta.
  rewrite (get_weather_decoded _ _ _ _ _ _ _ H).
  unfold try_except, bind, getitem, getindex. rewrite Hcod.
  split; [|split].
  - intros Hw. unfold ret at 1. rewrite Hok. cbn [negb]. rewrite Hw. reflexivity.
  - intros Hw. unfold ret at 1. rewrite Hok. cbn [negb]. rewrite Hw. reflexivity.
  - intros first more description Hw Hd Hm. unfold ret at 1. rewrite Hok.
    cbn [negb]. rewrite Hw. unfold ret at 1.
    cbn [nth_error]. unfold ret at 1. rewrite Hd. unfold ret at 1.
    rewrite Hm. reflexivity.
Qed.

Lemma get_weather_incomplete_report_witness :
  get_weather (demo_env [] (Decoded empty_report_response) (inl PageError))
    "paris" API_KEY initial
  = (Ret "I couldn't fetch the weather details. Please try later.",
     record (EPrintExn "Error fetching weather data: " IndexError)
       (record (EHttpGet (weather_url "paris" API_KEY)) initial)).
Proof.
  apply (proj1 (proj2 (get_weather_incomplete_report
                         (demo_env [] (Decoded empty_report_response) (inl PageError))
                         "paris" API_KEY initial
                         [("cod", JInt 200); ("weather", JArr [])] (JInt 200)
                         eq_refl eq_refl eq_refl))); reflexivity.
Defined.

(** ** More on the encyclopedia lookup *)

(** X12. [get_wikipedia_summary] asks once, for seven sentences of the
    query as given, in English.  A summary is returned as it is; a
    disambiguation with three candidates or fewer names them all, and one
    with none still returns its sentence, with nothing between the colon and
    the question mark. *)
Theorem wikipedia_lookup_outcomes (E : env) (query : string) (st : state) :
  let history := (trace st ++ [EWikiSetLang "en"])%list in
  let st' := record (EWikiSummary query 7) (record (EWikiSetLang "en") st) in
  (forall summary,
      wikipedia_summary E history query 7 = inr summary ->
      get_wikipedia_summary E query st = (Ret summary, st'))
  /\ (forall options,
      wikipedia_summary E history query 7 = inl (DisambiguationError options) ->
      List.length options <= 3 ->
      get_wikipedia_summary E query st
      = (Ret ("Your query is too broad. Did you mean: " ++ join ", " options ++ "?"),
         st'))
  /\ (wikipedia_summary E history query 7 = inl (DisambiguationError []) ->
      get_wikipedia_summary E query st
      = (Ret "Your query is too broad. Did you mean: ?", st'))
  /\ (exists summary st'',
      get_wikipedia_summary E query st = (Ret summary, st'')
      /\ lookups (trace st'') = (lookups (trace st) ++ [EWikiSummary query 7])%list).
Proof.
  cbv zeta. split; [|split; [|split]].
  - intros summary H.
    unfold get_wikipedia_summary, try_except, bind, emit, summary_call.
    cbn [trace record]. rewrite H. reflexivity.
  - intros options H Hlen.
    unfold get_wikipedia_summary, try_except, bind, emit, summary_call.
    cbn [trace record]. rewrite H. rewrite firstn_all2 by assumption. reflexivity.
  - intros H.
    unfold get_wikipedia_summary, try_except, bind, emit, summary_call.
    cbn [trace record]. rewrite H. reflexivity.
  - destruct (get_wikipedia_summary_ret E query st) as (summary & st'' & Eg & _ & Hk & _).
    eauto.
Qed.

Lemma wikipedia_lookup_outcomes_witness :
  get_wikipedia_summary
    (demo_env [] (HttpRaises TypeError)
       (inl (DisambiguationError ["Mercury (planet)"; "Mercury (element)"])))
    "mercury" initial
  = (Ret ("Your query is too broad. Did you mean: "
          ++ join ", " ["Mercury (planet)"; "Mercury (element)"] ++ "?"),
     record (EWikiSummary "mercury" 7) (record (EWikiSetLang "en") initial)).
Proof.
  apply (proj1 (proj2 (wikipedia_lookup_outcomes
                         (demo_env [] (HttpRaises TypeError)
                            (inl (DisambiguationError
                                    ["Mercury (planet)"; "Mercury (element)"])))
                         "mercury" initial))
           ["Mercury (planet)"; "Mercury (element)"] eq_refl).
  simpl. lia.
Defined.

(** ** The topic of an encyclopedia question *)

Lemma replace_from_absent (old new s : string) :
  contains old s = false -> replace_from old new 0 s = s.
Proof.
  induction s as [|c s IH]; [reflexivity|].
  cbn [contains replace_from]. intros H. apply orb_false_iff in H.
  destruct H as (Hp & Hc). rewrite Hp, (IH Hc). reflexivity.
Qed.

Lemma replace_absent (old new s : string) :
  contains old s = false -> replace old new s = s.
Proof.
  intros H. destruct old as [|c old].
  - destruct s; discriminate H.
  - apply replace_from_absent. assumption.
Qed.

(** X13. The topic never begins or ends with whitespace.  The two phrases
    are removed only where they stand in the very casing of the program's
    text: an utterance that has them in another casing, or not at all, is
    its own topic, trimmed. *)
Theorem extract_topic_keeps_other_casings (u : string) :
  trimmed (extract_topic u)
  /\ (contains "Wikipedia" u = false ->
      contains "tell me about" u = false ->
      extract_topic u = strip u).
Proof.
  split; [apply strip_trimmed|].
  intros Hw Ht. unfold extract_topic.
  rewrite (replace_absent "Wikipedia" "" u Hw).
  rewrite (replace_absent "tell me about" "" u Ht). reflexivity.
Qed.

Lemma extract_topic_keeps_other_casings_witness :
  trimmed (extract_topic "Tell me about black holes")
  /\ extract_topic "Tell me about black holes" = strip "Tell me about black holes".
Proof.
  destruct (extract_topic_keeps_other_casings "Tell me about black holes")
    as (Ht & He).
  split; [exact Ht|]. apply He; reflexivity.
Defined.

Example capital_question_is_looked_up_whole :
  classify "Tell me about black holes" = EncyclopediaQuery
  /\ lookups (trace (snd (turn capital_demo API_KEY initial)))
     = [EWikiSummary "Tell me about black holes" 7].
Proof. split; reflexivity. Qed.

(** ** The open chat *)

Lemma generate_ai_response_ret (E : env) (prompt : string) (st : state) :
  exists reply st',
    generate_ai_response E prompt st = (Ret reply, st')
    /\ engine_lock st' = engine_lock st
    /\ lookups (trace st')
       = (lookups (trace st)
          ++ match generator E with
             | Some _ => [EGenerate prompt 100 1]
             | None => []
             end)%list
    /\ captures (trace st') = captures (trace st).
Proof.
  unfold generate_ai_response. destruct (generator E) as [g|].
  - unfold try_except, bind, generate_call, emit, record.
    destruct (g (trace st) prompt) as [e|text];
      (do 2 eexists; split; [reflexivity|]); cbn [engine_lock trace];
      rewrite ?lookups_app, ?captures_app; unfold lookups, captures; simpl;
      rewrite ?app_nil_r; repeat split; lia.
  - do 2 eexists. split; [reflexivity|]. rewrite app_nil_r. repeat split.
Qed.

Lemma classify_open_chat (u : string) :
  classify u = OpenChat ->
  contains "bye" (lower u) = false
  /\ contains "weather" (lower u) = false
  /\ contains "Wikipedia" (lower u) || contains "tell me about" (lower u) = false.
Proof.
  unfold classify. intros H.
  destruct (contains "bye" (lower u)); [discriminate|].
  destruct (contains "weather" (lower u)); [discriminate|].
  destruct (contains "Wikipedia" (lower u) || contains "tell me about" (lower u));
    [discriminate|].
  repeat split.
Qed.

(** X14. An utterance with none of the trigger words is answered by the
    open chat: "Thinking..." is spoken, the generator, if there is one, is
    called once with the whole utterance as its prompt, the reply is
    spoken, then the closing prompt, and the loop goes on.  Nothing else is
    looked up and nothing more is captured. *)
Theorem open_chat_turn (E : env) (api_key : string) (st st1 : state) (u : string) :
  engine_lock st = false ->
  listen E st = (Ret u, st1) ->
  u <> EmptyString ->
  classify u = OpenChat ->
  exists st2 reply st3 st4 st5,
    speak E "Thinking..." (record (EPrint "Thinking...") st1) = (Ret tt, st2)
    /\ generate_ai_response E u st2 = (Ret reply, st3)
    /\ speak E reply (record (EPrint reply) st3) = (Ret tt, st4)
    /\ speak E "Do you need help with anything else?"
         (record (EPrint "Do you need help with anything else?") st4) = (Ret tt, st5)
    /\ turn E api_key st = (Ret Continue, st5)
    /\ lookups (trace st5)
       = (lookups (trace st)
          ++ match generator E with
             | Some _ => [EGenerate u 100 1]
             | None => []
             end)%list
    /\ captures (trace st5) = S (captures (trace st)).
Proof.
  intros Hl El Hne Hc.
  destruct (classify_open_chat u Hc) as (Hb & Hw & Ht).
  destruct (listen_ret E st st1 u Hl El) as (Hl1 & Hk1 & Hc1).
  destruct (announce_run E "Thinking..." st1 Hl1) as (st2 & Es2 & Hl2 & Hk2 & Hc2).
  destruct (generate_ai_response_ret E u st2) as (reply & st3 & Eg & Hl3 & Hk3 & Hc3).
  destruct (announce_run E reply st3) as (st4 & Es4 & Hl4 & Hk4 & Hc4); [congruence|].
  destruct (closing_prompt_run E st4 Hl4) as (st5 & Es5 & Ep5 & Hl5 & Hk5 & Hc5).
  exists st2, reply, st3, st4, st5.
  repeat split; try assumption; try congruence.
  unfold turn. erewrite bind_ret_eq by exact El.
  destruct u as [|c u]; [contradiction|]. cbn [is_empty].
  rewrite Hb, Hw, Ht. unfold bind at 1. unfold chat_branch.
  rewrite print_bind_eq. erewrite bind_ret_eq by exact Es2.
  erewrite bind_ret_eq by exact Eg. rewrite print_bind_eq, Es4, Ep5. reflexivity.
Qed.

Lemma open_chat_turn_witness :
  exists st2 reply st3 st4 st5,
    speak chat_demo "Thinking..."
      (record (EPrint "Thinking...") (snd (listen chat_demo initial))) = (Ret tt, st2)
    /\ generate_ai_response chat_demo "how are you today" st2 = (Ret reply, st3)
    /\ speak chat_demo reply (record (EPrint reply) st3) = (Ret tt, st4)
    /\ speak chat_demo "Do you need help with anything else?"
         (record (EPrint "Do you need help with anything else?") st4) = (Ret tt, st5)
    /\ turn chat_demo API_KEY initial = (Ret Continue, st5)
    /\ lookups (trace st5)
       = (lookups (trace initial)
          ++ match generator chat_demo with
             | Some _ => [EGenerate "how are you today" 100 1]
             | None => []
             end)%list
    /\ captures (trace st5) = S (captures (trace initial)).
Proof.
  apply (open_chat_turn chat_demo API_KEY initial (snd (listen chat_demo initial))
           "how are you today"); (reflexivity || discriminate).
Defined.

(** ** Bounds on a turn *)

Lemma within_weaken {A} (a b a' b' : nat) (m : M A) :
  a <= a' -> b <= b' -> within a b m -> within a' b' m.
Proof.
  intros Ha Hb H st Hl. destruct (H st Hl) as (r & evs & Em & Hr & Hk & Hc).
  exists r, evs. repeat split; try assumption; lia.
Qed.

Lemma within_of_runs {A} (m : M A) : runs false quiet m -> within 0 0 m.
Proof.
  intros H st Hl. destruct (H st Hl) as (r & evs & Em & Hr & Hq).
  exists r, evs. rewrite (quiet_lookups evs Hq), (quiet_captures evs Hq).
  repeat split; try assumption; simpl; lia.
Qed.

Lemma within_bind {A B} (a b a' b' : nat) (m : M A) (k : A -> M B) :
  within a b m -> (forall x, within a' b' (k x)) ->
  within (a + a') (b + b') (bind m k).
Proof.
  intros Hm Hk st Hl. destruct (Hm st Hl) as (r & evs & Em & Hr & Hlk & Hc).
  unfold bind. rewrite Em. destruct r as [x|e|]; [| |contradiction].
  - destruct (Hk x {| engine_lock := false; trace := trace st ++ evs |} eq_refl)
      as (r' & evs' & Ek & Hr' & Hlk' & Hc'). cbn [trace] in Ek.
    exists r', (evs ++ evs')%list. rewrite Ek, app_assoc.
    rewrite lookups_app, captures_app, length_app.
    repeat split; try assumption; lia.
  - exists (Raise e), evs. repeat split; try discriminate; lia.
Qed.

Lemma within_listen (E : env) : within 0 1 (listen E).
Proof.
  intros st Hl.
  destruct (listen_run E st Hl)
    as [(e & evs & El & _ & Hq)|(q & pre & post & El & Hpre & Hpost)].
  - exists (Raise e), evs. rewrite (quiet_lookups evs Hq), (quiet_captures evs Hq).
    repeat split; try assumption; try discriminate; simpl; lia.
  - exists (Ret q), (pre ++ EAudio (Listen 8 12) :: post)%list.
    change (EAudio (Listen 8 12) :: post) with ([EAudio (Listen 8 12)] ++ post)%list.
    rewrite !lookups_app, !captures_app.
    rewrite (quiet_lookups pre), (quiet_captures pre) by assumption.
    rewrite (quiet_lookups post), (quiet_captures post) by assumption.
    repeat split; try assumption; try discriminate; unfold captures; simpl; lia.
Qed.

Lemma within_get_weather (E : env) (city api_key : string) :
  within 1 0 (get_weather E city api_key).
Proof.
  intros st Hl. destruct (get_weather_run E city api_key st) as (info & evs & Eg & Hq).
  exists (Ret info), (EHttpGet (weather_url city api_key) :: evs). rewrite Eg, Hl.
  change (EHttpGet (weather_url city api_key) :: evs)
    with ([EHttpGet (weather_url city api_key)] ++ evs)%list.
  rewrite lookups_app, captures_app, (quiet_lookups evs), (quiet_captures evs)
    by assumption.
  repeat split; try discriminate; unfold captures; simpl; lia.
Qed.

Lemma within_get_wikipedia_summary (E : env) (query : string) :
  within 1 0 (get_wikipedia_summary E query).
Proof.
  intros st Hl.
  destruct (get_wikipedia_summary_run E query st) as (summary & evs & Eg & Hq).
  exists (Ret summary), (EWikiSetLang "en" :: EWikiSummary query 7 :: evs).
  rewrite Eg, Hl.
  change (EWikiSetLang "en" :: EWikiSummary query 7 :: evs)
    with ([EWikiSetLang "en"; EWikiSummary query 7] ++ evs)%list.
  rewrite lookups_app, captures_app, (quiet_lookups evs), (quiet_captures evs)
    by assumption.
  repeat split; try discriminate; unfold captures; simpl; lia.
Qed.

Lemma within_generate_ai_response (E : env) (prompt : string) :
  within 1 0 (generate_ai_response E prompt).
Proof.
  intros st Hl. unfold generate_ai_response. destruct (generator E) as [g|].
  - unfold try_except, bind, generate_call, emit, record. rewrite Hl.
    destruct (g (trace st) prompt) as [e|text]; eexists; eexists;
      (split; [cbn [engine_lock trace]; rewrite <- ?app_assoc; reflexivity|]);
      repeat split; try discriminate; unfold captures; simpl; lia.
  - exists (Ret "AI generation isn't available at the moment."), [].
    rewrite app_nil_r. unfold ret. destruct st; simpl in *; subst.
    repeat split; try discriminate; unfold captures; simpl; lia.
Qed.

(** Printing a text and speaking it, and whatever follows quietly. *)
Lemma within_announce {A} (E : env) (text : string) (k : M A) (a b : nat) :
  within a b k -> within a b (print text ;; speak E text ;; k).
Proof.
  intros Hk. change a with (0 + a). change b with (0 + b).
  apply within_bind; [apply within_of_runs; auto with quietdb|intros _].
  change a with (0 + a). change b with (0 + b).
  apply within_bind; [apply within_of_runs; auto with quietdb|intros _]. exact Hk.
Qed.

Lemma within_ret {A} (x : A) : within 0 0 (ret x).
Proof. apply within_of_runs. auto with quietdb. Qed.

Lemma within_say (E : env) (text : string) : within 0 0 (print text ;; speak E text).
Proof.
  change (within (0 + 0) (0 + 0) (print text ;; speak E text)).
  apply within_bind; [|intros _]; apply within_of_runs; auto with quietdb.
Qed.

Lemma within_weather_branch (E : env) (api_key : string) :
  within 1 1 (weather_branch E api_key).
Proof.
  unfold weather_branch. apply within_announce.
  change (within (0 + 1) (1 + 0)
            (city <- listen E ;;
             if negb (is_empty city) then
               weather_info <- get_weather E city api_key ;;
               print weather_info ;; speak E weather_info
             else
               print "I couldn't understand the city name. Please try again." ;;
               speak E "I couldn't understand the city name. Please try again.")).
  apply within_bind; [apply within_listen|intros city].
  destruct (negb (is_empty city)).
  - change (within (1 + 0) (0 + 0)
              (weather_info <- get_weather E city api_key ;;
               print weather_info ;; speak E weather_info)).
    apply within_bind; [apply within_get_weather|intros info]. apply within_say.
  - apply (within_weaken 0 0); [lia..|]. apply within_say.
Qed.

Lemma within_wikipedia_branch (E : env) (u : string) :
  within 1 0 (wikipedia_branch E u).
Proof.
  unfold wikipedia_branch. cbv zeta. destruct (negb (is_empty (extract_topic u))).
  - apply within_announce.
    change (within (1 + 0) (0 + 0)
              (summary <- get_wikipedia_summary E (extract_topic u) ;;
               print summary ;; speak E summary)).
    apply within_bind; [apply within_get_wikipedia_summary|intros s]. apply within_say.
  - apply (within_weaken 0 0); [lia..|]. apply within_say.
Qed.

Lemma within_chat_branch (E : env) (u : string) : within 1 0 (chat_branch E u).
Proof.
  unfold chat_branch. apply within_announce.
  change (within (1 + 0) (0 + 0)
            (response <- generate_ai_response E u ;;
             print response ;; speak E response)).
  apply within_bind; [apply within_generate_ai_response|intros s]. apply within_say.
Qed.

Lemma within_turn (E : env) (api_key : string) : within 1 2 (turn E api_key).
Proof.
  unfold turn. apply (within_bind 0 1 1 1); [apply within_listen|intros u].
  destruct (is_empty u); [apply (within_weaken 0 0); [lia..|apply within_ret]|].
  destruct (contains "bye" (lower u)).
  - apply (within_weaken 0 0); [lia..|]. apply within_announce. apply within_ret.
  - apply (within_bind 1 1 0 0).
    + destruct (contains "weather" (lower u)); [apply within_weather_branch|].
      destruct (contains "Wikipedia" (lower u) || contains "tell me about" (lower u)).
      * apply (within_weaken 1 0); [lia..|]. apply within_wikipedia_branch.
      * apply (within_weaken 1 0); [lia..|]. apply within_chat_branch.
    + intros _. cbv zeta. apply within_announce. apply within_ret.
Qed.

(** X15. A turn, started with the speech lock free, never deadlocks and
    leaves the lock free; it makes at most one lookup and at most two audio
    captures, whatever the utterances and whatever the providers do. *)
Theorem turn_bounds (E : env) (api_key : string) (st : state) :
  engine_lock st = false ->
  exists r st',
    turn E api_key st = (r, st')
    /\ r <> Deadlock
    /\ engine_lock st' = false
    /\ List.length (lookups (trace st')) <= 1 + List.length (lookups (trace st))
    /\ captures (trace st') <= 2 + captures (trace st).
Proof.
  intros Hl. destruct (within_turn E api_key st Hl) as (r & evs & Et & Hr & Hk & Hc).
  do 2 eexists. split; [exact Et|]. cbn [engine_lock trace].
  rewrite lookups_app, captures_app, length_app. repeat split; try assumption; lia.
Qed.

Lemma turn_bounds_witness :
  exists r st',
    turn weather_demo API_KEY initial = (r, st')
    /\ r <> Deadlock
    /\ engine_lock st' = false
    /\ List.length (lookups (trace st')) <= 1 + List.length (lookups (trace initial))
    /\ captures (trace st') <= 2 + captures (trace initial).
Proof.
  apply (turn_bounds weather_demo API_KEY initial). reflexivity.
Defined.

(** ** How the loop ends *)















(** X17. An empty capture in the main listening state only sends the loop
    back to listening: the turn adds nothing to what [listen] did, speaks no
    closing prompt and looks nothing up. *)
Theorem empty_capture_only_retries (E : env) (api_key : string) (st st1 : state)
    (n : nat) :
  listen E st = (Ret EmptyString, st1) ->
  turn E api_key st = (Ret Continue, st1)
  /\ turn_loop E api_key (S n) st = turn_loop E api_key n st1.
Proof. exact (empty_capture_retries E api_key st st1 n). Qed.

Lemma empty_capture_only_retries_witness :
  turn silent_env API_KEY initial = (Ret Continue, snd (listen silent_env initial))
  /\ turn_loop silent_env API_KEY 3 initial
     = turn_loop silent_env API_KEY 2 (snd (listen silent_env initial)).
Proof.
  apply (empty_capture_only_retries silent_env API_KEY initial
           (snd (listen silent_env initial)) 2). reflexivity.
Defined.

(** X18. Two calls of [speak] in a row: the second takes the lock, and
    touches the device, only after the first has released it. *)
Theorem speak_calls_do_not_overlap (E : env) (a b : string) (st : state) :
  engine_lock st = false ->
  exists line_a body_a line_b body_b,
    (speak E a ;; speak E b) st =
      (Ret tt,
       {| engine_lock := false;
          trace := (trace st ++ EPrint line_a :: EAcquire :: body_a ++ [ERelease])
                   ++ EPrint line_b :: EAcquire :: body_b ++ [ERelease] |})
    /\ Forall under_lock body_a /\ Forall under_lock body_b.
Proof. exact (speak_twice_serialized E a b st). Qed.

Lemma speak_calls_do_not_overlap_witness :
  exists line_a body_a line_b body_b,
    (speak failing_tts_env "one" ;; speak failing_tts_env "two") initial =
      (Ret tt,
       {| engine_lock := false;
          trace := (trace initial
                    ++ EPrint line_a :: EAcquire :: body_a ++ [ERelease])
                   ++ EPrint line_b :: EAcquire :: body_b ++ [ERelease] |})
    /\ Forall under_lock body_a /\ Forall under_lock body_b.
Proof.
  apply (speak_calls_do_not_overlap failing_tts_env "one" "two" initial). reflexivity.
Defined.
